(** * Spectral Residual anomaly scorer (merlion/models/anomaly/spectral_residual.py)

    A shallow embedding of [SpectralResidualConfig] and [SpectralResidual]
    and of the NumPy / pandas operations they call, followed by the
    properties of the scoring pipeline.

    Numeric model.  Arrays of float64 are lists of real numbers ([R]) and
    complex arrays are lists of pairs of reals: arithmetic is exact, and the
    IEEE special values (nan, inf) are not represented.  Python integers
    are [Z].  Every Python exception the code can raise on one-dimensional
    data is a value of [exn], and fallible operations live in the [result]
    monad.  The only mutated object, the detector's configuration, is
    threaded explicitly through [_train]. *)

From Stdlib Require Import String Decimal DecimalString.
From Stdlib Require Import Reals ZArith List Lia Lra Bool.
Import ListNotations.

(* ================================================================== *)
(** * Exceptions and the result monad *)

Inductive exn : Type :=
| IndexError
| ValueError
| RuntimeError (msg : string)
| AssertionError (msg : string)
| NotOneDimensional.

Inductive result (A : Type) : Type :=
| Ok (a : A)
| Raise (e : exn).

Arguments Ok {A} a.
Arguments Raise {A} e.

Definition bind {A B : Type} (m : result A) (k : A -> result B) : result B :=
  match m with
  | Ok a => k a
  | Raise e => Raise e
  end.

Notation "x <- m ;; k" := (bind m (fun x => k))
  (at level 61, m at next level, right associativity).

(** A configuration error is one of the two exceptions [_train] raises
    itself. *)
Definition is_config_error {A : Type} (r : result A) : bool :=
  match r with
  | Raise (RuntimeError _) | Raise (AssertionError _) => true
  | _ => false
  end.

Definition is_ok {A : Type} (r : result A) : bool :=
  match r with Ok _ => true | Raise _ => false end.

(** The outcome is a value or an exception other than a configuration
    error. *)
Definition plain {A : Type} (r : result A) : Prop := is_config_error r = false.

(* ================================================================== *)
(** * Python sequences: indexing and slicing *)

(** [l[i]]: a negative index counts from the end; out of range raises. *)
Definition py_index {A : Type} (l : list A) (i : Z) : result A :=
  let n := Z.of_nat (length l) in
  let j := (if i <? 0 then i + n else i)%Z in
  if ((0 <=? j) && (j <? n))%Z
  then match nth_error l (Z.to_nat j) with
       | Some x => Ok x
       | None => Raise IndexError
       end
  else Raise IndexError.

(** A slice bound is clamped into [0, n] after a negative one is shifted. *)
Definition py_bound (n i : Z) : Z :=
  (if i <? 0 then Z.max (i + n) 0 else Z.min i n)%Z.

(** [l[lo:hi]] with step 1; [None] is an omitted bound. *)
Definition py_slice {A : Type} (lo hi : option Z) (l : list A) : list A :=
  let n := Z.of_nat (length l) in
  let start := match lo with Some i => py_bound n i | None => 0%Z end in
  let stop := match hi with Some i => py_bound n i | None => n end in
  firstn (Z.to_nat (stop - start)) (skipn (Z.to_nat start) l).

(** Decimal rendering of an integer inside an f-string. *)
Definition string_of_Z (z : Z) : string := NilZero.string_of_int (Z.to_int z).

(* ================================================================== *)
(** * Complex numbers *)

Open Scope R_scope.

Definition C : Type := (R * R)%type.

Definition RtoC (x : R) : C := (x, 0).
Definition Ci : C := (0, 1).
Definition Cplus (a b : C) : C := (fst a + fst b, snd a + snd b).
Definition Cmult (a b : C) : C :=
  (fst a * fst b - snd a * snd b, fst a * snd b + snd a * fst b).
Definition Cscale (r : R) (a : C) : C := (r * fst a, r * snd a).

(** [np.abs] of a complex number. *)
Definition Cabs (z : C) : R := sqrt (fst z * fst z + snd z * snd z).

(** [np.exp] of a complex number. *)
Definition Cexp (z : C) : C := (exp (fst z) * cos (snd z), exp (fst z) * sin (snd z)).

Definition atan2 (y x : R) : R :=
  if Rlt_dec 0 x then atan (y / x)
  else if Rlt_dec x 0
       then (if Rle_dec 0 y then atan (y / x) + PI else atan (y / x) - PI)
       else if Rlt_dec 0 y then PI / 2
            else if Rlt_dec y 0 then - (PI / 2) else 0.

(** [np.angle]: the argument in (-pi, pi]. *)
Definition Carg (z : C) : R := atan2 (snd z) (fst z).

Definition cis (theta : R) : C := (cos theta, sin theta).

Definition Rsum (l : list R) : R := fold_right Rplus 0 l.
Definition Csum (l : list C) : C := fold_right Cplus (0, 0) l.

(* ================================================================== *)
(** * NumPy operations used by the detector *)

(** [np.ones(n)]: a negative dimension raises. *)
Definition np_ones (n : Z) : result (list R) :=
  if (n <? 0)%Z then Raise ValueError else Ok (repeat 1 (Z.to_nat n)).

(** [np.arange(lo, hi)] on integers. *)
Definition np_arange (lo hi : Z) : list Z :=
  map (fun k => (lo + Z.of_nat k)%Z) (seq 0 (Z.to_nat (hi - lo))).

Definition np_flip {A : Type} (l : list A) : list A := rev l.

(** [np.where(a > c, c, a)] with a scalar [c]. *)
Definition np_where_gt (a : list Z) (c : Z) : list Z :=
  map (fun x => if (x >? c)%Z then c else x) a.

Definition zip_with {A B D : Type} (f : A -> B -> D) (a : list A) (b : list B) : list D :=
  map (fun p => f (fst p) (snd p)) (combine a b).

(** Element-wise binary operation on two 1-D arrays with NumPy's
    broadcasting: equal shapes are zipped, a shape-(1,) operand is stretched
    to the other shape, anything else raises. *)
Definition broadcast {A B D : Type} (f : A -> B -> D) (a : list A) (b : list B)
  : result (list D) :=
  if (length a =? length b)%nat then Ok (zip_with f a b)
  else match a, b with
       | [x], _ => Ok (map (f x) b)
       | _, [y] => Ok (map (fun x => f x y) a)
       | _, _ => Raise ValueError
       end.

(** [np.average(a)] without weights: the mean (0/0 for an empty array). *)
Definition np_average (a : list R) : R := Rsum a / INR (length a).

(** [np.pad(values, ((0, k),), constant_values=item)]. *)
Definition np_pad (values : list R) (k : Z) (item : R) : result (list R) :=
  if (k <? 0)%Z then Raise ValueError
  else Ok (values ++ repeat item (Z.to_nat k)).

Inductive conv_mode : Type := Full | Same.

(** Entry [n] of the discrete convolution: the sum of [a[m] * v[n - m]]
    over all [m] for which both factors exist. *)
Definition conv_at (a v : list R) (n : nat) : R :=
  Rsum (map (fun m => nth m a 0 * nth (n - m) v 0)
            (filter (fun m => (m <=? n)%nat && (n - m <? length v)%nat)
                    (seq 0 (length a)))).

Definition conv_full (a v : list R) : list R :=
  map (conv_at a v) (seq 0 (length a + length v - 1)).

(** [np.convolve(a, v, mode)]: empty operands raise; mode "full" has
    [M + N - 1] entries, mode "same" the central [max(M, N)] of them. *)
Definition np_convolve (a v : list R) (mode : conv_mode) : result (list R) :=
  match a, v with
  | [], _ => Raise ValueError
  | _, [] => Raise ValueError
  | _, _ =>
      match mode with
      | Full => Ok (conv_full a v)
      | Same =>
          Ok (firstn (Nat.max (length a) (length v))
                     (skipn ((Nat.min (length a) (length v) - 1) / 2)
                            (conv_full a v)))
      end
  end.

(** [np.fft.fft] of a real array: the discrete Fourier transform. *)
Definition dft (x : list C) : list C :=
  let N := length x in
  map (fun k =>
         Csum (map (fun n =>
                      Cmult (nth n x (0, 0))
                            (cis (- (2 * PI * INR (k * n) / INR N))))
                   (seq 0 N)))
      (seq 0 N).

Definition np_fft (x : list R) : result (list C) :=
  match x with
  | [] => Raise ValueError
  | _ => Ok (dft (map RtoC x))
  end.

(** [np.fft.ifft]: the inverse transform, scaled by [1 / N]. *)
Definition idft (X : list C) : list C :=
  let N := length X in
  map (fun n =>
         Cscale (1 / INR N)
                (Csum (map (fun k =>
                              Cmult (nth k X (0, 0))
                                    (cis (2 * PI * INR (k * n) / INR N)))
                           (seq 0 N))))
      (seq 0 N).

Definition np_ifft (X : list C) : result (list C) :=
  match X with
  | [] => Raise ValueError
  | _ => Ok (idft X)
  end.

(* ================================================================== *)
(** * pandas frames *)

(** A [pd.DataFrame] of reals, stored by column: [index] holds the
    timestamps (one per row), [columns] the channels. *)
Record DataFrame : Type := {
  index : list Z;
  columns : list (list R)
}.

(** [len(df)]: the number of rows. *)
Definition len (df : DataFrame) : Z := Z.of_nat (length (index df)).

(** [df.shape[1]]: the number of channels. *)
Definition shape1 (df : DataFrame) : Z := Z.of_nat (length (columns df)).

(** [df.values[:, i]]. *)
Definition values_col (df : DataFrame) (i : Z) : result (list R) :=
  py_index (columns df) i.

(** [pd.DataFrame(data, index=idx)] for 1-D [data]: the lengths must agree. *)
Definition pd_DataFrame (data : list R) (idx : list Z) : result DataFrame :=
  if (length data =? length idx)%nat
  then Ok {| index := idx; columns := [data] |}
  else Raise ValueError.

(** Every channel has one sample per timestamp. *)
Definition wf_frame (df : DataFrame) : Prop :=
  Forall (fun c => length c = length (index df)) (columns df).

(* ================================================================== *)
(** * SpectralResidualConfig *)

Record SpectralResidualConfig : Type := {
  local_wind_sz : Z;
  q : Z;
  estimated_points : Z;
  predicting_points : Z;
  target_seq_index : option Z
}.

(** [SpectralResidualConfig()] with the default arguments of [__init__]. *)
Definition default_config : SpectralResidualConfig :=
  {| local_wind_sz := 21;
     q := 3;
     estimated_points := 5;
     predicting_points := 5;
     target_seq_index := None |}.

(** The assignment [config.target_seq_index = t]. *)
Definition set_target_seq_index (cfg : SpectralResidualConfig) (t : option Z)
  : SpectralResidualConfig :=
  {| local_wind_sz := local_wind_sz cfg;
     q := q cfg;
     estimated_points := estimated_points cfg;
     predicting_points := predicting_points cfg;
     target_seq_index := t |}.

(* ================================================================== *)
(** * SpectralResidual *)

(** The attributes [__init__] sets ([train_data] is never read). *)
Record SpectralResidual : Type := {
  config : SpectralResidualConfig;
  q_conv_map : list R;
  self_local_wind_sz : Z;
  local_conv_map : list R
}.

(** [SpectralResidual.__init__]. *)
Definition SpectralResidual_init (cfg : option SpectralResidualConfig)
  : result SpectralResidual :=
  let cfg := match cfg with None => default_config | Some c => c end in
  ones_q <- np_ones (q cfg) ;;
  ones_w <- np_ones (local_wind_sz cfg) ;;
  Ok {| config := cfg;
        q_conv_map := map (fun x => x / IZR (q cfg)) ones_q;
        self_local_wind_sz := local_wind_sz cfg;
        local_conv_map := ones_w |}.

(** The assignment [self.config.target_seq_index = t]. *)
Definition assign_target (self : SpectralResidual) (t : option Z) : SpectralResidual :=
  {| config := set_target_seq_index (config self) t;
     q_conv_map := q_conv_map self;
     self_local_wind_sz := self_local_wind_sz self;
     local_conv_map := local_conv_map self |}.

(** The property [SpectralResidual.target_seq_index]. *)
Definition self_target_seq_index (self : SpectralResidual) : option Z :=
  target_seq_index (config self).

Definition _get_saliency_map (self : SpectralResidual) (values : list R)
  : result (list R) :=
  transform <- np_fft values ;;
  let log_amps := map (fun z => ln (Cabs z)) transform in
  let phases := map Carg transform in
  avg_log_amps <- np_convolve log_amps (q_conv_map self) Same ;;
  residuals <- broadcast Rminus log_amps avg_log_amps ;;
  z <- broadcast Cplus (map RtoC residuals) (map (fun p => Cmult Ci (RtoC p)) phases) ;;
  inv <- np_ifft (map Cexp z) ;;
  Ok (map Cabs inv).

Definition _compute_grad (self : SpectralResidual) (values : list R) : result R :=
  let m := Z.min (predicting_points (config self)) (Z.of_nat (length values) - 1) in
  x_n <- py_index values (-1) ;;
  let a := map (fun v => x_n - v) (py_slice (Some (- m - 1)%Z) (Some (-1)%Z) values) in
  let b := np_flip (np_arange 1 (m + 1)) in
  averages <- broadcast (fun x k => x / IZR k) a b ;;
  Ok (np_average averages).

Definition _pad (self : SpectralResidual) (values : list R) : result (list R) :=
  grad <- _compute_grad self values ;;
  let m := Z.min (predicting_points (config self)) (Z.of_nat (length values) - 1) in
  v <- py_index values (- m) ;;
  let item := v + grad * IZR m in
  np_pad values (estimated_points (config self)) item.

(** Lines 123-126 of [_get_anomaly_score]: the target channel of the series,
    preceded by the target channel of the history when there is one. *)
Definition working_values (i : Z) (time_series : DataFrame)
           (time_series_prev : option DataFrame) : result (list R) :=
  match time_series_prev with
  | None => values_col time_series i
  | Some prev =>
      h <- values_col prev i ;;
      v <- values_col time_series i ;;
      Ok (h ++ v)
  end.

(** Lines 128-131: pad, take the saliency map, drop the padded tail. *)
Definition trimmed_saliency_map (self : SpectralResidual) (values : list R)
  : result (list R) :=
  let est := estimated_points (config self) in
  padded_values <- (if (est >? 0)%Z then _pad self values else Ok values) ;;
  saliency_map <- _get_saliency_map self padded_values ;;
  Ok (if (est >? 0)%Z then py_slice None (Some (- est)%Z) saliency_map
      else saliency_map).

(** Lines 133-136: the trailing local average; [n] is [values.shape[0]]. *)
Definition local_average (self : SpectralResidual) (saliency_map : list R) (n : Z)
  : result (list R) :=
  conv <- np_convolve saliency_map (local_conv_map self) Full ;;
  let average_values := py_slice None (Some n) conv in
  let a := np_arange 1 (Z.of_nat (length average_values) + 1) in
  let a := np_where_gt a (self_local_wind_sz self) in
  quot <- broadcast (fun x k => x / IZR k) average_values a ;;
  Ok (py_slice None (Some (-1)%Z) quot).

(** Line 137: the score array. *)
Definition assemble_scores (saliency_map average_values : list R) : result (list R) :=
  num <- broadcast Rminus (py_slice (Some 1%Z) None saliency_map) average_values ;;
  rel <- broadcast Rdiv num (map (fun x => x + 1e-8) average_values) ;;
  Ok (0 :: rel).

(** Indexing a 2-D array with [None] inserts an axis: the computation leaves
    one-dimensional arrays, which this embedding does not follow.  [_train]
    never reaches that case. *)
Definition _get_anomaly_score (self : SpectralResidual) (time_series : DataFrame)
           (time_series_prev : option DataFrame) : result DataFrame :=
  match self_target_seq_index self with
  | None => Raise NotOneDimensional
  | Some i =>
      values <- working_values i time_series time_series_prev ;;
      saliency_map <- trimmed_saliency_map self values ;;
      average_values <- local_average self saliency_map (Z.of_nat (length values)) ;;
      output_values <- assemble_scores saliency_map average_values ;;
      pd_DataFrame (py_slice (Some (- len time_series)%Z) None output_values)
                   (index time_series)
  end.

Definition missing_target_msg (dim : Z) : string :=
  ("Attempting to use the SR algorithm on a " ++ string_of_Z dim
   ++ "-variable time series, but didn't specify a `target_seq_index` "
   ++ "indicating which univariate is the target.")%string.

Definition out_of_range_msg (dim : Z) (t : Z) : string :=
  ("Expected `target_seq_index` to be between 0 and " ++ string_of_Z dim
   ++ " (the dimension of the transformed data), but got " ++ string_of_Z t)%string.

(** Lines 151-156 of [_train], with [t] the value [self.target_seq_index]
    holds when the assertion is evaluated. *)
Definition assert_then_score (self : SpectralResidual) (t dim : Z)
           (train_data : DataFrame) : result DataFrame :=
  if ((0 <=? t) && (t <? dim))%Z
  then _get_anomaly_score self train_data None
  else Raise (AssertionError (out_of_range_msg dim t)).

(** [_train] returns the detector as the call leaves it (its configuration
    may have been assigned) together with the scores or the exception. *)
Definition _train (self : SpectralResidual) (train_data : DataFrame)
  : SpectralResidual * result DataFrame :=
  let dim := shape1 train_data in
  if (dim =? 1)%Z
  then let self1 := assign_target self (Some 0%Z) in
       (self1, assert_then_score self1 0 dim train_data)
  else match self_target_seq_index self with
       | None => (self, Raise (RuntimeError (missing_target_msg dim)))
       | Some t => (self, assert_then_score self t dim train_data)
       end.

(* ================================================================== *)
(** * Reference formulations

    The stages as the design describes them, written over plain lists
    without exceptions or slicing; the theorems below relate the code to
    them. *)

(** Indices of the centred window of width [q] around position [k] that
    fall inside an array of length [N]. *)
Definition centered_window (q N k : nat) : list nat :=
  filter (fun m => (k <=? m + q / 2)%nat && (m <=? k + (q - 1) / 2)%nat) (seq 0 N).

(** Moving average with a uniform kernel of value [1/q], truncated at the
    edges, same length as the input. *)
Definition moving_average (q : nat) (x : list R) : list R :=
  map (fun k => Rsum (map (fun m => nth m x 0) (centered_window q (length x) k)) / INR q)
      (seq 0 (length x)).

Definition saliency_map_ref (q : nat) (x : list R) : list R :=
  let spectrum := dft (map RtoC x) in
  let log_amplitude := map (fun z => ln (Cabs z)) spectrum in
  let phase := map Carg spectrum in
  let residual := zip_with Rminus log_amplitude (moving_average q log_amplitude) in
  map Cabs (idft (zip_with (fun r p => Cexp (r, p)) residual phase)).

(** Full convolution with [w] ones, first [N] entries, entry [k] (1-based)
    divided by [min(k, w)], last entry dropped. *)
Definition local_average_ref (w : nat) (s : list R) : list R :=
  let N := length s in
  let kept := firstn N (conv_full s (repeat 1 w)) in
  removelast (map (fun k => nth (k - 1) kept 0 / INR (Nat.min k w)) (seq 1 N)).

(** The per-step slopes towards the final value from the points [m],
    [m - 1], ..., [1] steps before it. *)
Definition slopes (m : nat) (values : list R) : list R :=
  let n := length values in
  map (fun d => (nth (n - 1) values 0 - nth (n - 1 - d) values 0) / INR d)
      (rev (seq 1 m)).

Definition gradient_ref (m : nat) (values : list R) : R :=
  Rsum (slopes m values) / INR m.

Definition padded_ref (m k : nat) (values : list R) : list R :=
  values ++ repeat (nth (length values - m) values 0 + gradient_ref m values * INR m) k.

(** The score of a saliency value [x] against the trailing average [y]. *)
Definition relative_deviation (x y : R) : R := (x - y) / (y + 1e-8).

(** The score array: a leading zero, then the deviations of
    [s[1], s[2], ...] from [a[0], a[1], ...]. *)
Definition scores_ref (s a : list R) : list R :=
  0 :: zip_with relative_deviation (skipn 1 s) a.

(* ================================================================== *)
(** * Preconditions *)

(** The smoothing kernel is the one the constructor builds, [np.ones(q) / q],
    for a positive [q]. *)
Definition smoothing_kernel_ok (self : SpectralResidual) : Prop :=
  (1 <= q (config self))%Z /\
  q_conv_map self
    = map (fun x => x / IZR (q (config self))) (repeat 1 (Z.to_nat (q (config self)))).

(** The trailing kernel is the one the constructor builds,
    [np.ones(local_wind_sz)], for a positive [local_wind_sz]. *)
Definition trailing_kernel_ok (self : SpectralResidual) : Prop :=
  (1 <= self_local_wind_sz self)%Z /\
  local_conv_map self = repeat 1 (Z.to_nat (self_local_wind_sz self)).

(** The detector is as its constructor builds it from a configuration
    whose window sizes and [predicting_points] are positive. *)
Definition well_configured (self : SpectralResidual) : Prop :=
  smoothing_kernel_ok self /\
  trailing_kernel_ok self /\
  (1 <= predicting_points (config self))%Z.

(** Number of padding points actually appended. *)
Definition pad_count (self : SpectralResidual) : Z :=
  Z.max (estimated_points (config self)) 0.

(** A working array of [n] points is long enough for the detector: it is
    not empty and, once padded, not shorter than the smoothing kernel. *)
Definition long_enough (self : SpectralResidual) (n : Z) : Prop :=
  (1 <= n)%Z /\ (q (config self) <= n + pad_count self)%Z.

Definition channel_in_range (i : Z) (df : DataFrame) : Prop :=
  (0 <= i < shape1 df)%Z.

Definition history_ok (i : Z) (prev : option DataFrame) : Prop :=
  match prev with
  | None => True
  | Some p => wf_frame p /\ channel_in_range i p
  end.

Definition history_len (prev : option DataFrame) : Z :=
  match prev with
  | None => 0%Z
  | Some p => len p
  end.

(** A scoring call the detector can carry out. *)
Definition valid_call (self : SpectralResidual) (i : Z) (time_series : DataFrame)
           (time_series_prev : option DataFrame) : Prop :=
  well_configured self /\
  self_target_seq_index self = Some i /\
  wf_frame time_series /\ channel_in_range i time_series /\
  history_ok i time_series_prev /\
  (1 <= len time_series)%Z /\
  long_enough self (history_len time_series_prev + len time_series).

(* ================================================================== *)
(** * Sample detectors and series *)

(** What [SpectralResidual(config=cfg)] builds when the window sizes are
    not negative. *)
Definition constructed (cfg : SpectralResidualConfig) : SpectralResidual :=
  {| config := cfg;
     q_conv_map := map (fun x => x / IZR (q cfg)) (repeat 1 (Z.to_nat (q cfg)));
     self_local_wind_sz := local_wind_sz cfg;
     local_conv_map := repeat 1 (Z.to_nat (local_wind_sz cfg)) |}.

(** The default configuration with a target already chosen. *)
Definition config_with_target (t : Z) : SpectralResidualConfig :=
  set_target_seq_index default_config (Some t).

(** [SpectralResidualConfig(q=q0, estimated_points=0, target_seq_index=0)]. *)
Definition unpadded_config (q0 : Z) : SpectralResidualConfig :=
  {| local_wind_sz := 21;
     q := q0;
     estimated_points := 0;
     predicting_points := 5;
     target_seq_index := Some 0%Z |}.

(** One channel sampled at the timestamps [start, start + 1, ...], with
    the sample at [t] equal to [t]. *)
Definition ramp (start n : nat) : DataFrame :=
  {| index := map Z.of_nat (seq start n);
     columns := [map INR (seq start n)] |}.

Definition history_one : DataFrame := {| index := [0%Z]; columns := [[1]] |}.
Definition series_zero : DataFrame := {| index := [1%Z]; columns := [[0]] |}.
Definition two_points : DataFrame := {| index := [0%Z; 1%Z]; columns := [[1; 2]] |}.
Definition no_channels : DataFrame := {| index := [0%Z; 1%Z]; columns := [] |}.
Definition one_channel : DataFrame :=
  {| index := [0%Z; 1%Z; 2%Z]; columns := [[1; 2; 3]] |}.
Definition three_channels : DataFrame :=
  {| index := [0%Z; 1%Z; 2%Z]; columns := [[1; 2; 3]; [4; 5; 6]; [7; 8; 9]] |}.

(** The array [a, a + b, a + 2 b, ...] of [n] points. *)
Definition arithmetic_progression (a b : R) (n : nat) : list R :=
  map (fun i => a + b * INR i) (seq 0 n).

(* ================================================================== *)
(** * Basic facts: the monad, slices, broadcasting *)

Lemma bind_Ok_inv {A B : Type} (m : result A) (k : A -> result B) (b : B) :
  bind m k = Ok b -> exists a, m = Ok a /\ k a = Ok b.
Proof.
  destruct m as [a|e]; simpl; intros H; [now exists a | discriminate].
Qed.

Lemma bind_ret_r {A : Type} (m : result A) : bind m (fun a => Ok a) = m.
Proof. now destruct m. Qed.

Section PythonSequences.

Context {A : Type}.

Lemma firstn_ge (k : nat) (l : list A) :
  (length l <= k)%nat -> firstn k l = l.
Proof. apply firstn_all2. Qed.

Lemma py_slice_to (k : Z) (l : list A) :
  (0 <= k)%Z -> py_slice None (Some k) l = firstn (Z.to_nat k) l.
Proof.
  intros Hk. unfold py_slice, py_bound.
  destruct (Z.ltb_spec k 0); [lia|]. rewrite skipn_O, Z.sub_0_r.
  destruct (Z.le_ge_cases k (Z.of_nat (length l))).
  - now rewrite Z.min_l.
  - rewrite Z.min_r, Nat2Z.id, firstn_all by lia.
    symmetry. apply firstn_ge. lia.
Qed.

Lemma py_slice_drop (k : Z) (l : list A) :
  (0 < k)%Z -> py_slice None (Some (- k)%Z) l = firstn (length l - Z.to_nat k) l.
Proof.
  intros Hk. unfold py_slice, py_bound.
  destruct (Z.ltb_spec (- k) 0); [|lia]. rewrite skipn_O, Z.sub_0_r.
  f_equal. lia.
Qed.

Lemma py_slice_from1 (l : list A) :
  py_slice (Some 1%Z) None l = skipn 1 l.
Proof.
  unfold py_slice, py_bound. destruct (Z.ltb_spec 1 0); [lia|].
  destruct l as [|x l]; [reflexivity|].
  rewrite Z.min_l by (simpl length; lia).
  change (Z.to_nat 1) with 1%nat.
  apply firstn_ge. rewrite length_skipn. simpl length. lia.
Qed.

Lemma py_slice_last (k : Z) (l : list A) :
  (1 <= k <= Z.of_nat (length l))%Z ->
  py_slice (Some (- k)%Z) None l = skipn (length l - Z.to_nat k) l.
Proof.
  intros Hk. unfold py_slice, py_bound.
  destruct (Z.ltb_spec (- k) 0); [|lia].
  rewrite Z.max_l by lia.
  replace (Z.to_nat (- k + Z.of_nat (length l))) with (length l - Z.to_nat k)%nat by lia.
  apply firstn_ge. rewrite length_skipn. lia.
Qed.

Lemma py_slice_before_last (m : Z) (l : list A) :
  (0 <= m < Z.of_nat (length l))%Z ->
  py_slice (Some (- m - 1)%Z) (Some (-1)%Z) l
  = firstn (Z.to_nat m) (skipn (length l - 1 - Z.to_nat m) l).
Proof.
  intros Hm. unfold py_slice, py_bound.
  destruct (Z.ltb_spec (- m - 1) 0); [|lia].
  destruct (Z.ltb_spec (-1) 0); [|lia].
  rewrite !Z.max_l by lia.
  f_equal; [|f_equal]; lia.
Qed.

Lemma py_slice_drop_last (l : list A) :
  py_slice None (Some (-1)%Z) l = firstn (length l - 1) l.
Proof. apply (py_slice_drop 1 l). lia. Qed.

Lemma py_index_last (l : list A) (d : A) :
  (1 <= length l)%nat -> py_index l (-1) = Ok (nth (length l - 1) l d).
Proof.
  intros Hl. unfold py_index.
  destruct (Z.ltb_spec (-1) 0); [|lia].
  destruct (Z.leb_spec 0 (-1 + Z.of_nat (length l))); [|lia].
  destruct (Z.ltb_spec (-1 + Z.of_nat (length l)) (Z.of_nat (length l))); [|lia].
  simpl andb. cbv iota.
  replace (Z.to_nat (-1 + Z.of_nat (length l))) with (length l - 1)%nat by lia.
  rewrite (nth_error_nth' l d) by lia. reflexivity.
Qed.

Lemma py_index_neg (l : list A) (m : Z) (d : A) :
  (1 <= m <= Z.of_nat (length l))%Z ->
  py_index l (- m) = Ok (nth (length l - Z.to_nat m) l d).
Proof.
  intros Hm. unfold py_index.
  destruct (Z.ltb_spec (- m) 0); [|lia].
  destruct (Z.leb_spec 0 (- m + Z.of_nat (length l))); [|lia].
  destruct (Z.ltb_spec (- m + Z.of_nat (length l)) (Z.of_nat (length l))); [|lia].
  simpl andb. cbv iota.
  replace (Z.to_nat (- m + Z.of_nat (length l))) with (length l - Z.to_nat m)%nat by lia.
  rewrite (nth_error_nth' l d) by lia. reflexivity.
Qed.

Lemma py_index_nonneg (l : list A) (i : Z) (d : A) :
  (0 <= i < Z.of_nat (length l))%Z -> py_index l i = Ok (nth (Z.to_nat i) l d).
Proof.
  intros Hi. unfold py_index.
  destruct (Z.ltb_spec i 0); [lia|].
  destruct (Z.leb_spec 0 i); [|lia].
  destruct (Z.ltb_spec i (Z.of_nat (length l))); [|lia].
  simpl andb. cbv iota.
  rewrite (nth_error_nth' l d) by lia. reflexivity.
Qed.

End PythonSequences.

Lemma zip_with_length {A B D : Type} (f : A -> B -> D) (a : list A) (b : list B) :
  length (zip_with f a b) = Nat.min (length a) (length b).
Proof. unfold zip_with. now rewrite length_map, length_combine. Qed.

Lemma zip_with_nth {A B D : Type} (f : A -> B -> D) (a : list A) (b : list B)
      (n : nat) (da : A) (db : B) (d : D) :
  (n < length a)%nat -> (n < length b)%nat ->
  nth n (zip_with f a b) d = f (nth n a da) (nth n b db).
Proof.
  revert b n. induction a as [|x a IH]; intros [|y b] [|n]; simpl; intros Ha Hb;
    try lia; [reflexivity|].
  apply IH; lia.
Qed.

Lemma broadcast_same_length {A B D : Type} (f : A -> B -> D) (a : list A) (b : list B) :
  length a = length b -> broadcast f a b = Ok (zip_with f a b).
Proof. intros H. unfold broadcast. now rewrite H, Nat.eqb_refl. Qed.

Lemma zip_with_map {A B A' B' D E : Type} (g : D -> E) (f : A' -> B' -> D)
      (h1 : A -> A') (h2 : B -> B') (a : list A) (b : list B) :
  map g (zip_with f (map h1 a) (map h2 b))
  = zip_with (fun x y => g (f (h1 x) (h2 y))) a b.
Proof.
  revert b. induction a as [|x a IH]; intros [|y b]; try reflexivity.
  unfold zip_with in *. simpl. f_equal. apply IH.
Qed.

Lemma zip_with_ext {A B D : Type} (f g : A -> B -> D) (a : list A) (b : list B) :
  (forall x y, f x y = g x y) -> zip_with f a b = zip_with g a b.
Proof.
  intros H. unfold zip_with. apply map_ext. intros [x y]. apply H.
Qed.

Lemma IZR_to_nat (z : Z) : (0 <= z)%Z -> INR (Z.to_nat z) = IZR z.
Proof. intros H. now rewrite INR_IZR_INZ, Z2Nat.id. Qed.

(* ================================================================== *)
(** * Finite sums and convolution *)

Lemma Rsum_scale {A : Type} (h : A -> R) (c : R) (l : list A) :
  Rsum (map (fun m => h m * c) l) = Rsum (map h l) * c.
Proof.
  induction l as [|x l IH]; simpl; [ring|]. rewrite IH. ring.
Qed.

Lemma Rsum_map_ext_in {A : Type} (f g : A -> R) (l : list A) :
  (forall x, In x l -> f x = g x) -> Rsum (map f l) = Rsum (map g l).
Proof. intros H. f_equal. now apply map_ext_in. Qed.

Lemma conv_full_length (a v : list R) :
  length (conv_full a v) = (length a + length v - 1)%nat.
Proof. unfold conv_full. now rewrite length_map, length_seq. Qed.

Lemma conv_full_nth (a v : list R) (n : nat) :
  (n < length a + length v - 1)%nat -> nth n (conv_full a v) 0 = conv_at a v n.
Proof.
  intros H. unfold conv_full.
  rewrite (nth_indep _ 0 (conv_at a v 0)) by (rewrite length_map, length_seq; lia).
  rewrite map_nth, seq_nth by lia. reflexivity.
Qed.

(** Convolving with a constant kernel sums a window of the input. *)
Lemma conv_at_constant (a : list R) (c : R) (w n : nat) :
  conv_at a (repeat c w) n
  = Rsum (map (fun m => nth m a 0)
              (filter (fun m => (m <=? n)%nat && (n - m <? w)%nat) (seq 0 (length a)))) * c.
Proof.
  unfold conv_at. rewrite repeat_length, <- Rsum_scale.
  apply Rsum_map_ext_in. intros m Hm.
  apply filter_In in Hm. destruct Hm as [_ Hm].
  apply andb_prop in Hm. destruct Hm as [_ Hm]. apply Nat.ltb_lt in Hm.
  now rewrite nth_repeat_lt.
Qed.

Lemma np_convolve_full_ok (a v : list R) :
  (1 <= length a)%nat -> (1 <= length v)%nat ->
  np_convolve a v Full = Ok (conv_full a v).
Proof. destruct a, v; simpl; intros; try lia; reflexivity. Qed.

Lemma np_convolve_same_ok (a v : list R) :
  (1 <= length v)%nat -> (length v <= length a)%nat ->
  np_convolve a v Same
  = Ok (firstn (length a) (skipn ((length v - 1) / 2) (conv_full a v))).
Proof.
  intros Hv Ha. unfold np_convolve.
  destruct a as [|x a]; [simpl in *; lia|]. destruct v as [|y v]; [simpl in *; lia|].
  now rewrite Nat.max_l, Nat.min_r by lia.
Qed.

Lemma seq_eq (a b n1 n2 : nat) :
  n1 = n2 -> (n1 = 0%nat \/ a = b) -> seq a n1 = seq b n2.
Proof. intros <- [->| ->]; reflexivity. Qed.

Lemma seq_cons_eq (s a b n1 n2 : nat) :
  b = s -> a = S s -> n2 = S n1 -> s :: seq a n1 = seq b n2.
Proof. intros -> -> ->. reflexivity. Qed.

Lemma filter_seq_from (lo hi s N : nat) :
  filter (fun m => (lo <=? m)%nat && (m <=? hi)%nat) (seq s N)
  = seq (Nat.max lo s) (Nat.min (hi + 1) (s + N) - Nat.max lo s).
Proof.
  revert s. induction N as [|N IH]; intros s.
  - cbn [seq filter].
    replace (Nat.min (hi + 1) (s + 0) - Nat.max lo s)%nat with 0%nat by lia.
    reflexivity.
  - cbn [seq filter]. rewrite IH.
    destruct (Nat.leb_spec lo s) as [Hl|Hl]; destruct (Nat.leb_spec s hi) as [Hh|Hh];
      cbn [andb].
    + apply seq_cons_eq; lia.
    + apply seq_eq; lia.
    + apply seq_eq; lia.
    + apply seq_eq; lia.
Qed.

Lemma filter_seq_interval (lo hi N : nat) :
  filter (fun m => (lo <=? m)%nat && (m <=? hi)%nat) (seq 0 N)
  = seq lo (Nat.min (hi + 1) N - lo).
Proof. rewrite filter_seq_from. f_equal; lia. Qed.

Lemma window_predicates_agree (q k m : nat) :
  (1 <= q)%nat ->
  ((m <=? (q - 1) / 2 + k)%nat && ((q - 1) / 2 + k - m <? q)%nat)
  = ((k <=? m + q / 2)%nat && (m <=? k + (q - 1) / 2)%nat).
Proof.
  intros Hq.
  assert (Hd : ((q - 1) / 2 + q / 2 = q - 1)%nat).
  { pose proof (Nat.div_mod_eq (q - 1) 2). pose proof (Nat.div_mod_eq q 2).
    pose proof (Nat.mod_upper_bound (q - 1) 2). pose proof (Nat.mod_upper_bound q 2).
    assert ((q - 1) / 2 <= q / 2)%nat by (apply Nat.Div0.div_le_mono; lia).
    assert (q / 2 <= (q - 1) / 2 + 1)%nat.
    { replace ((q - 1) / 2 + 1)%nat with ((q - 1 + 1 * 2) / 2)%nat
        by (rewrite Nat.div_add by lia; reflexivity).
      apply Nat.Div0.div_le_mono. lia. }
    lia. }
  destruct (Nat.leb_spec m ((q - 1) / 2 + k));
    destruct (Nat.ltb_spec ((q - 1) / 2 + k - m) q);
    destruct (Nat.leb_spec k (m + q / 2));
    destruct (Nat.leb_spec m (k + (q - 1) / 2)); simpl; try reflexivity; lia.
Qed.

Lemma dft_length (x : list C) : length (dft x) = length x.
Proof. unfold dft. now rewrite length_map, length_seq. Qed.

Lemma idft_length (X : list C) : length (idft X) = length X.
Proof. unfold idft. now rewrite length_map, length_seq. Qed.

Lemma np_fft_ok (x : list R) :
  (1 <= length x)%nat -> np_fft x = Ok (dft (map RtoC x)).
Proof. destruct x; simpl; [lia|reflexivity]. Qed.

Lemma np_ifft_ok (X : list C) :
  (1 <= length X)%nat -> np_ifft X = Ok (idft X).
Proof. destruct X; simpl; [lia|reflexivity]. Qed.

Lemma nth_map_seq (F : nat -> R) (N k : nat) :
  (k < N)%nat -> nth k (map F (seq 0 N)) 0 = F k.
Proof.
  intros H. rewrite (nth_indep _ 0 (F 0%nat)) by (rewrite length_map, length_seq; lia).
  rewrite map_nth, seq_nth by lia. reflexivity.
Qed.

(** Mode "same" with the kernel [np.ones(q) / q] is the centred moving
    average, as long as the kernel is not longer than the array. *)
Lemma same_convolution_moving_average (q : nat) (x : list R) :
  (1 <= q)%nat -> (q <= length x)%nat ->
  firstn (length x)
         (skipn ((q - 1) / 2) (conv_full x (map (fun y => y / INR q) (repeat 1 q))))
  = moving_average q x.
Proof.
  intros Hq Hx.
  assert (Hs : ((q - 1) / 2 <= q - 1)%nat) by (apply Nat.Div0.div_le_upper_bound; lia).
  rewrite map_repeat.
  apply (nth_ext _ _ 0 0).
  - rewrite length_firstn, length_skipn, conv_full_length, repeat_length.
    unfold moving_average. rewrite length_map, length_seq. lia.
  - intros k Hk.
    rewrite length_firstn, length_skipn, conv_full_length, repeat_length in Hk.
    assert (Hk' : (k < length x)%nat) by lia.
    rewrite nth_firstn. destruct (Nat.ltb_spec k (length x)); [|lia].
    rewrite nth_skipn, conv_full_nth by (rewrite repeat_length; lia).
    unfold moving_average. rewrite nth_map_seq by lia.
    rewrite conv_at_constant. unfold centered_window.
    rewrite (filter_ext _ _ (fun m => window_predicates_agree q k m Hq)).
    unfold Rdiv. ring.
Qed.

Lemma saliency_map_ref_length (q : nat) (x : list R) :
  length (saliency_map_ref q x) = length x.
Proof.
  unfold saliency_map_ref.
  rewrite length_map, idft_length, !zip_with_length.
  unfold moving_average.
  repeat (rewrite length_map || rewrite length_seq || rewrite dft_length). lia.
Qed.

Lemma Cexp_polar (r p : R) : Cexp (Cplus (RtoC r) (Cmult Ci (RtoC p))) = Cexp (r, p).
Proof.
  assert (E1 : r + (0 * p - 1 * 0) = r) by ring.
  assert (E2 : 0 + (0 * 0 + 1 * p) = p) by ring.
  unfold Cplus, Cmult, Ci, RtoC. cbn [fst snd]. now rewrite E1, E2.
Qed.

Lemma saliency_map_ok (self : SpectralResidual) (x : list R) :
  smoothing_kernel_ok self ->
  (q (config self) <= Z.of_nat (length x))%Z ->
  _get_saliency_map self x = Ok (saliency_map_ref (Z.to_nat (q (config self))) x).
Proof.
  intros (Hq & Hk) Hx.
  unfold _get_saliency_map, saliency_map_ref.
  rewrite np_fft_ok by lia. cbn [bind].
  set (spectrum := dft (map RtoC x)).
  assert (Hlen : length spectrum = length x)
    by (unfold spectrum; now rewrite dft_length, length_map).
  set (log_amps := map (fun z => ln (Cabs z)) spectrum).
  assert (Hla : length log_amps = length x) by (unfold log_amps; now rewrite length_map).
  rewrite Hk, <- IZR_to_nat by lia.
  set (qn := Z.to_nat (q (config self))).
  rewrite np_convolve_same_ok by (rewrite length_map, repeat_length; lia).
  cbn [bind]. rewrite (length_map _ (repeat 1 qn)), repeat_length.
  rewrite same_convolution_moving_average by lia.
  assert (Hma : length (moving_average qn log_amps) = length x)
    by (unfold moving_average; now rewrite length_map, length_seq).
  rewrite broadcast_same_length by lia. cbn [bind].
  rewrite broadcast_same_length
    by (rewrite !length_map, zip_with_length; lia).
  cbn [bind].
  rewrite zip_with_map, (zip_with_ext _ _ _ _ Cexp_polar).
  rewrite np_ifft_ok by (rewrite zip_with_length, zip_with_length, length_map; lia).
  reflexivity.
Qed.

(* ================================================================== *)
(** * Gradient and padding *)

Lemma nth_map_lt {A B : Type} (f : A -> B) (l : list A) (k : nat) (da : A) (db : B) :
  (k < length l)%nat -> nth k (map f l) db = f (nth k l da).
Proof.
  revert k. induction l as [|x l IH]; intros [|k]; simpl; intros H; try lia;
    [reflexivity|].
  apply IH. lia.
Qed.

Lemma np_arange_length (lo hi : Z) : length (np_arange lo hi) = Z.to_nat (hi - lo).
Proof. unfold np_arange. now rewrite length_map, length_seq. Qed.

Lemma np_arange_nth (lo hi : Z) (k : nat) (d : Z) :
  (k < Z.to_nat (hi - lo))%nat -> nth k (np_arange lo hi) d = (lo + Z.of_nat k)%Z.
Proof.
  intros H. unfold np_arange.
  rewrite (nth_map_lt _ _ _ 0%nat) by (rewrite length_seq; lia).
  rewrite seq_nth by lia. reflexivity.
Qed.

Lemma slopes_length (m : nat) (values : list R) : length (slopes m values) = m.
Proof. unfold slopes. now rewrite length_map, length_rev, length_seq. Qed.

Lemma compute_grad_ok (self : SpectralResidual) (values : list R) :
  (1 <= predicting_points (config self))%Z ->
  (1 <= length values)%nat ->
  _compute_grad self values
  = Ok (gradient_ref
          (Z.to_nat (Z.min (predicting_points (config self))
                           (Z.of_nat (length values) - 1)))
          values).
Proof.
  intros Hp Hn. unfold _compute_grad, gradient_ref.
  set (mz := Z.min (predicting_points (config self)) (Z.of_nat (length values) - 1)).
  set (m := Z.to_nat mz).
  assert (Hm : (0 <= mz < Z.of_nat (length values))%Z) by lia.
  rewrite (py_index_last values 0) by lia. cbn [bind].
  rewrite py_slice_before_last by lia. fold m.
  set (x_n := nth (length values - 1) values 0).
  assert (Hw : length (firstn m (skipn (length values - 1 - m) values)) = m)
    by (rewrite length_firstn, length_skipn; lia).
  assert (Hb : length (np_flip (np_arange 1 (mz + 1))) = m)
    by (unfold np_flip; rewrite length_rev, np_arange_length; lia).
  rewrite broadcast_same_length by (rewrite length_map; lia). cbn [bind].
  unfold np_average. rewrite zip_with_length, length_map, Hw, Hb, Nat.min_id.
  do 3 f_equal.
  apply (nth_ext _ _ 0 0).
  - rewrite zip_with_length, length_map, Hw, Hb, slopes_length. lia.
  - intros t Ht. rewrite zip_with_length, length_map, Hw, Hb, Nat.min_id in Ht.
    rewrite (zip_with_nth _ _ _ _ 0 0%Z) by (rewrite ?length_map; lia).
    rewrite (nth_map_lt _ _ _ 0) by lia.
    rewrite nth_firstn.
    destruct (Nat.ltb_spec t m); [|lia].
    rewrite nth_skipn.
    unfold np_flip. rewrite rev_nth by (rewrite np_arange_length; lia).
    rewrite np_arange_length, np_arange_nth by lia.
    unfold slopes.
    rewrite (nth_map_lt _ _ _ 0%nat) by (rewrite length_rev, length_seq; lia).
    rewrite rev_nth by (rewrite length_seq; lia).
    rewrite length_seq, seq_nth by lia.
    unfold x_n. rewrite INR_IZR_INZ.
    replace (length values - 1 - (1 + (m - S t)))%nat
      with (length values - 1 - m + t)%nat by lia.
    replace (Z.of_nat (1 + (m - S t))) with (1 + Z.of_nat (Z.to_nat (mz + 1 - 1) - S t))%Z
      by lia.
    reflexivity.
Qed.

Lemma pad_ok (self : SpectralResidual) (values : list R) :
  (1 <= predicting_points (config self))%Z ->
  (2 <= length values)%nat ->
  (0 <= estimated_points (config self))%Z ->
  _pad self values
  = Ok (padded_ref
          (Z.to_nat (Z.min (predicting_points (config self))
                           (Z.of_nat (length values) - 1)))
          (Z.to_nat (estimated_points (config self)))
          values).
Proof.
  intros Hp Hn He. unfold _pad.
  rewrite compute_grad_ok by lia. cbn [bind].
  set (mz := Z.min (predicting_points (config self)) (Z.of_nat (length values) - 1)).
  rewrite (py_index_neg values mz 0) by lia. cbn [bind].
  unfold np_pad. destruct (Z.ltb_spec (estimated_points (config self)) 0); [lia|].
  unfold padded_ref. rewrite IZR_to_nat by lia. reflexivity.
Qed.

(** With a single point the slice bound is [-0]: the code reads
    [values[0]] and averages an empty array. *)
Lemma pad_length (self : SpectralResidual) (values : list R) :
  (1 <= predicting_points (config self))%Z ->
  (1 <= length values)%nat ->
  (0 <= estimated_points (config self))%Z ->
  exists padded,
    _pad self values = Ok padded /\
    length padded = (length values + Z.to_nat (estimated_points (config self)))%nat.
Proof.
  intros Hp Hn He. unfold _pad.
  rewrite compute_grad_ok by lia. cbn [bind].
  set (mz := Z.min (predicting_points (config self)) (Z.of_nat (length values) - 1)).
  assert (Hidx : exists v, py_index values (- mz) = Ok v).
  { destruct (Z.eq_dec mz 0) as [E|E].
    - rewrite E. exists (nth 0 values 0). apply (py_index_nonneg values 0 0). lia.
    - eexists. apply (py_index_neg values mz 0). lia. }
  destruct Hidx as [v ->]. cbn [bind].
  unfold np_pad. destruct (Z.ltb_spec (estimated_points (config self)) 0); [lia|].
  eexists. split; [reflexivity|].
  now rewrite length_app, repeat_length.
Qed.

(* ================================================================== *)
(** * The stages of [_get_anomaly_score] *)

Lemma trimmed_saliency_map_ok (self : SpectralResidual) (values : list R) :
  well_configured self ->
  long_enough self (Z.of_nat (length values)) ->
  exists s, trimmed_saliency_map self values = Ok s /\ length s = length values.
Proof.
  intros Hwc [Hn Hq]. unfold pad_count in Hq.
  pose proof Hwc as (Hsk & Htk & Hp). pose proof Hsk as (Hq1 & Hk).
  unfold trimmed_saliency_map.
  destruct (Z.gtb_spec (estimated_points (config self)) 0) as [He|He].
  - destruct (pad_length self values) as (padded & -> & Hlen); try lia.
    cbn [bind]. rewrite saliency_map_ok by (trivial; lia). cbn [bind].
    eexists. split; [reflexivity|].
    rewrite py_slice_drop, length_firstn, saliency_map_ref_length by lia. lia.
  - cbn [bind]. rewrite saliency_map_ok by (trivial; lia). cbn [bind].
    eexists. split; [reflexivity|]. apply saliency_map_ref_length.
Qed.

Lemma np_where_gt_length (a : list Z) (c : Z) : length (np_where_gt a c) = length a.
Proof. unfold np_where_gt. apply length_map. Qed.

Lemma local_average_ref_length (w : nat) (s : list R) :
  length (local_average_ref w s) = (length s - 1)%nat.
Proof.
  unfold local_average_ref.
  rewrite removelast_firstn_len, length_firstn, length_map, length_seq. lia.
Qed.

Lemma local_average_ok (self : SpectralResidual) (s : list R) :
  trailing_kernel_ok self ->
  (1 <= length s)%nat ->
  local_average self s (Z.of_nat (length s))
  = Ok (local_average_ref (Z.to_nat (self_local_wind_sz self)) s).
Proof.
  intros (Hw & Hl) Hs.
  unfold local_average, local_average_ref. rewrite Hl.
  set (w := Z.to_nat (self_local_wind_sz self)).
  rewrite np_convolve_full_ok by (rewrite ?repeat_length; lia). cbn [bind].
  rewrite py_slice_to, Nat2Z.id by lia.
  set (kept := firstn (length s) (conv_full s (repeat 1 w))).
  assert (Hkept : length kept = length s).
  { unfold kept. rewrite length_firstn, conv_full_length, repeat_length. lia. }
  rewrite Hkept.
  assert (Ha : length (np_where_gt (np_arange 1 (Z.of_nat (length s) + 1))
                                   (self_local_wind_sz self)) = length s).
  { rewrite np_where_gt_length, np_arange_length. lia. }
  rewrite broadcast_same_length by lia. cbn [bind].
  rewrite py_slice_drop_last.
  rewrite zip_with_length, Hkept, Ha, Nat.min_id.
  rewrite removelast_firstn_len, length_map, length_seq.
  replace (Nat.pred (length s)) with (length s - 1)%nat by lia.
  do 2 f_equal.
  apply (nth_ext _ _ 0 0).
  - rewrite zip_with_length, Hkept, Ha, length_map, length_seq. lia.
  - intros t Ht. rewrite zip_with_length, Hkept, Ha, Nat.min_id in Ht.
    rewrite (zip_with_nth _ _ _ _ 0 0%Z) by lia.
    rewrite (nth_map_lt _ _ _ 0%nat) by (rewrite length_seq; lia).
    rewrite seq_nth by lia.
    unfold np_where_gt.
    rewrite (nth_map_lt _ _ _ 0%Z) by (rewrite np_arange_length; lia).
    rewrite np_arange_nth by lia.
    replace (1 + t - 1)%nat with t by lia.
    f_equal. rewrite INR_IZR_INZ. f_equal.
    destruct (Z.gtb_spec (1 + Z.of_nat t) (self_local_wind_sz self)); lia.
Qed.

(** Entry [k] (1-based) of the trailing average is the mean of the last
    [min(k, w)] saliency values up to and including position [k]. *)
Lemma local_average_ref_nth (w : nat) (s : list R) (k : nat) :
  (1 <= w)%nat -> (1 <= k <= length s - 1)%nat ->
  nth (k - 1) (local_average_ref w s) 0
  = Rsum (map (fun j => nth j s 0) (seq (k - w) (Nat.min k w))) / INR (Nat.min k w).
Proof.
  intros Hw Hk. unfold local_average_ref.
  rewrite removelast_firstn_len, length_map, length_seq, nth_firstn.
  destruct (Nat.ltb_spec (k - 1) (Nat.pred (length s))); [|lia].
  rewrite (nth_map_lt _ _ _ 0%nat) by (rewrite length_seq; lia).
  rewrite seq_nth by lia.
  replace (1 + (k - 1))%nat with k by lia.
  rewrite nth_firstn. destruct (Nat.ltb_spec (k - 1) (length s)); [|lia].
  rewrite conv_full_nth by (rewrite repeat_length; lia).
  rewrite conv_at_constant, Rmult_1_r.
  do 3 f_equal.
  rewrite (filter_ext _ (fun m => (k - w <=? m)%nat && (m <=? k - 1)%nat)).
  - rewrite filter_seq_interval. f_equal. lia.
  - intros m.
    destruct (Nat.leb_spec m (k - 1)); destruct (Nat.ltb_spec (k - 1 - m) w);
      destruct (Nat.leb_spec (k - w) m); simpl; try reflexivity; lia.
Qed.

Lemma assemble_scores_ok (s a : list R) :
  length s = S (length a) ->
  assemble_scores s a = Ok (scores_ref s a).
Proof.
  intros Hlen. unfold assemble_scores, scores_ref.
  rewrite py_slice_from1.
  assert (Ht : length (skipn 1 s) = length a) by (rewrite length_skipn; lia).
  rewrite broadcast_same_length by lia. cbn [bind].
  rewrite broadcast_same_length by (rewrite zip_with_length, length_map; lia).
  cbn [bind]. do 2 f_equal.
  generalize (skipn 1 s) Ht. clear. intros t.
  revert a. induction t as [|x t IH]; intros [|y a] H; simpl in H; try lia;
    [reflexivity|].
  unfold zip_with in *. simpl. f_equal. apply IH. lia.
Qed.

Lemma assembled_nth (s a : list R) (k : nat) :
  length s = S (length a) -> (1 <= k < length s)%nat ->
  nth k (scores_ref s a) 0
  = (nth k s 0 - nth (k - 1) a 0) / (nth (k - 1) a 0 + 1e-8).
Proof.
  intros Hlen Hk. unfold scores_ref. destruct k as [|k]; [lia|]. cbn [nth].
  rewrite (zip_with_nth _ _ _ _ 0 0) by (rewrite ?length_skipn; lia).
  rewrite nth_skipn. replace (S k - 1)%nat with k by lia. reflexivity.
Qed.

Lemma scores_ref_length (s a : list R) :
  length s = S (length a) -> length (scores_ref s a) = length s.
Proof.
  intros H. unfold scores_ref. cbn [length].
  rewrite zip_with_length, length_skipn. lia.
Qed.

Lemma values_col_ok (df : DataFrame) (i : Z) :
  wf_frame df -> channel_in_range i df ->
  exists v, values_col df i = Ok v /\ length v = length (index df).
Proof.
  intros Hwf Hi. unfold channel_in_range, shape1 in Hi. unfold values_col.
  rewrite (py_index_nonneg _ _ []) by lia.
  eexists. split; [reflexivity|].
  unfold wf_frame in Hwf. rewrite Forall_forall in Hwf.
  apply Hwf, nth_In. lia.
Qed.

Lemma working_values_ok (i : Z) (ts : DataFrame) (prev : option DataFrame) :
  wf_frame ts -> channel_in_range i ts -> history_ok i prev ->
  exists values,
    working_values i ts prev = Ok values /\
    Z.of_nat (length values) = (history_len prev + len ts)%Z.
Proof.
  intros Hwf Hi Hh. unfold working_values, history_len, len.
  destruct (values_col_ok ts i Hwf Hi) as (v & Hv & Hlv).
  destruct prev as [p|].
  - destruct Hh as [Hwp Hip].
    destruct (values_col_ok p i Hwp Hip) as (h & Hhc & Hlh).
    rewrite Hhc, Hv. cbn [bind]. eexists. split; [reflexivity|].
    rewrite length_app. lia.
  - exists v. split; [assumption|]. lia.
Qed.

(** Every stage of a valid call succeeds, with the shapes the next stage
    expects. *)
Lemma score_pipeline (self : SpectralResidual) (i : Z) (ts : DataFrame)
      (prev : option DataFrame) :
  valid_call self i ts prev ->
  exists values s,
    working_values i ts prev = Ok values /\
    Z.of_nat (length values) = (history_len prev + len ts)%Z /\
    trimmed_saliency_map self values = Ok s /\
    length s = length values /\
    local_average self s (Z.of_nat (length values))
    = Ok (local_average_ref (Z.to_nat (self_local_wind_sz self)) s) /\
    assemble_scores s (local_average_ref (Z.to_nat (self_local_wind_sz self)) s)
    = Ok (scores_ref s (local_average_ref (Z.to_nat (self_local_wind_sz self)) s)) /\
    _get_anomaly_score self ts prev
    = Ok {| index := index ts;
            columns := [skipn (length values - length (index ts))
                              (scores_ref s (local_average_ref
                                               (Z.to_nat (self_local_wind_sz self)) s))] |}.
Proof.
  intros (Hwc & Ht & Hwf & Hi & Hh & HL & Hlong).
  destruct (working_values_ok i ts prev Hwf Hi Hh) as (values & Hv & Hn).
  rewrite <- Hn in Hlong.
  destruct (trimmed_saliency_map_ok self values Hwc Hlong) as (s & Hs & Hls).
  assert (Hs1 : (1 <= length s)%nat) by (destruct Hlong; lia).
  pose proof (local_average_ok self s (proj1 (proj2 Hwc)) Hs1) as Ha. rewrite Hls in Ha.
  set (a := local_average_ref (Z.to_nat (self_local_wind_sz self)) s) in *.
  assert (Hla : length s = S (length a))
    by (unfold a; rewrite local_average_ref_length; lia).
  pose proof (assemble_scores_ok s a Hla) as Ho.
  exists values, s. repeat split; try assumption.
  unfold _get_anomaly_score. rewrite Ht, Hv. cbn [bind].
  rewrite Hs. cbn [bind]. rewrite Ha. cbn [bind]. rewrite Ho. cbn [bind].
  pose proof (scores_ref_length s a Hla) as Hlo.
  assert (Hh0 : (0 <= history_len prev)%Z) by (destruct prev; unfold history_len, len; lia).
  unfold len in *.
  rewrite py_slice_last by lia.
  unfold pd_DataFrame. rewrite length_skipn, Hlo, Hls, Nat2Z.id.
  replace (length values - (length values - length (index ts)))%nat
    with (length (index ts)) by lia.
  rewrite Nat.eqb_refl. reflexivity.
Qed.

(** Whenever scoring returns a frame, that frame carries the index of the
    scored series and one column with one score per timestamp. *)
Lemma score_aligned_when_ok (self : SpectralResidual) (ts : DataFrame)
      (prev : option DataFrame) (df : DataFrame) :
  _get_anomaly_score self ts prev = Ok df ->
  index df = index ts /\
  exists scores, columns df = [scores] /\ length scores = length (index ts).
Proof.
  unfold _get_anomaly_score. destruct (self_target_seq_index self) as [i|]; [|discriminate].
  intros H.
  apply bind_Ok_inv in H. destruct H as (values & _ & H).
  apply bind_Ok_inv in H. destruct H as (s & _ & H).
  apply bind_Ok_inv in H. destruct H as (a & _ & H).
  apply bind_Ok_inv in H. destruct H as (out & _ & H).
  unfold pd_DataFrame in H.
  destruct (Nat.eqb_spec (length (py_slice (Some (- len ts)%Z) None out))
                         (length (index ts))) as [E|E]; [|discriminate].
  injection H as <-. cbn [index columns]. split; [reflexivity|].
  eexists. split; [reflexivity|exact E].
Qed.

(* ================================================================== *)
(** * Exceptions of the scoring pipeline

    Scoring raises [IndexError], [ValueError] or leaves the model; the two
    configuration errors come from [_train] alone. *)

Lemma plain_bind {A B : Type} (m : result A) (k : A -> result B) :
  plain m -> (forall a, plain (k a)) -> plain (bind m k).
Proof. destruct m as [a|e]; simpl; intros Hm Hk; [apply Hk|exact Hm]. Qed.

Lemma plain_Ok {A : Type} (a : A) : plain (Ok a).
Proof. reflexivity. Qed.

Lemma plain_py_index {A : Type} (l : list A) (i : Z) : plain (py_index l i).
Proof.
  unfold py_index.
  destruct ((0 <=? _) && _)%Z; [|reflexivity].
  destruct (nth_error l _); reflexivity.
Qed.

Lemma plain_broadcast {A B D : Type} (f : A -> B -> D) (a : list A) (b : list B) :
  plain (broadcast f a b).
Proof.
  unfold broadcast. destruct (length a =? length b)%nat; [reflexivity|].
  destruct a as [|x [|x' a]]; destruct b as [|y [|y' b]]; reflexivity.
Qed.

Lemma plain_np_convolve (a v : list R) (mode : conv_mode) : plain (np_convolve a v mode).
Proof. destruct a, v, mode; reflexivity. Qed.

Lemma plain_np_fft (x : list R) : plain (np_fft x).
Proof. destruct x; reflexivity. Qed.

Lemma plain_np_ifft (X : list C) : plain (np_ifft X).
Proof. destruct X; reflexivity. Qed.

Lemma plain_np_pad (values : list R) (k : Z) (item : R) : plain (np_pad values k item).
Proof. unfold np_pad. destruct (k <? 0)%Z; reflexivity. Qed.

Lemma plain_pd_DataFrame (data : list R) (idx : list Z) : plain (pd_DataFrame data idx).
Proof. unfold pd_DataFrame. destruct (_ =? _)%nat; reflexivity. Qed.

Create HintDb plain.
#[local] Hint Resolve plain_Ok plain_py_index plain_broadcast plain_np_convolve
  plain_np_fft plain_np_ifft plain_np_pad plain_pd_DataFrame : plain.

Ltac plain_steps :=
  repeat (apply plain_bind; [auto with plain|intros]); auto with plain.

Lemma plain_get_saliency_map (self : SpectralResidual) (values : list R) :
  plain (_get_saliency_map self values).
Proof. unfold _get_saliency_map. plain_steps. Qed.

Lemma plain_compute_grad (self : SpectralResidual) (values : list R) :
  plain (_compute_grad self values).
Proof. unfold _compute_grad. plain_steps. Qed.

#[local] Hint Resolve plain_get_saliency_map plain_compute_grad : plain.

Lemma plain_pad (self : SpectralResidual) (values : list R) : plain (_pad self values).
Proof. unfold _pad. plain_steps. Qed.

#[local] Hint Resolve plain_pad : plain.

Lemma plain_get_anomaly_score (self : SpectralResidual) (ts : DataFrame)
      (prev : option DataFrame) :
  plain (_get_anomaly_score self ts prev).
Proof.
  unfold _get_anomaly_score. destruct (self_target_seq_index self); [|reflexivity].
  apply plain_bind.
  { unfold working_values, values_col. destruct prev; plain_steps. }
  intros values. apply plain_bind.
  { unfold trimmed_saliency_map.
    destruct (estimated_points (config self) >? 0)%Z; plain_steps. }
  intros s. apply plain_bind.
  { unfold local_average. plain_steps. }
  intros a. apply plain_bind.
  { unfold assemble_scores. plain_steps. }
  intros out. auto with plain.
Qed.

(* ================================================================== *)
(** * Construction and assignment of the target *)

Lemma SpectralResidual_init_ok (cfg : SpectralResidualConfig) :
  (0 <= q cfg)%Z -> (0 <= local_wind_sz cfg)%Z ->
  SpectralResidual_init (Some cfg) = Ok (constructed cfg).
Proof.
  intros Hq Hw. unfold SpectralResidual_init, np_ones.
  destruct (Z.ltb_spec (q cfg) 0); [lia|].
  destruct (Z.ltb_spec (local_wind_sz cfg) 0); [lia|].
  reflexivity.
Qed.

Lemma init_well_configured (cfg : SpectralResidualConfig) (self : SpectralResidual) :
  (1 <= q cfg)%Z -> (1 <= local_wind_sz cfg)%Z -> (1 <= predicting_points cfg)%Z ->
  SpectralResidual_init (Some cfg) = Ok self ->
  well_configured self /\ config self = cfg.
Proof.
  intros Hq Hw Hp H. rewrite SpectralResidual_init_ok in H by lia.
  injection H as <-.
  unfold well_configured, smoothing_kernel_ok, trailing_kernel_ok. cbn.
  repeat split; trivial.
Qed.

Lemma assign_target_well_configured (self : SpectralResidual) (t : option Z) :
  well_configured self -> well_configured (assign_target self t).
Proof. intros H. exact H. Qed.

Lemma assign_target_long_enough (self : SpectralResidual) (t : option Z) (n : Z) :
  long_enough self n -> long_enough (assign_target self t) n.
Proof. intros H. exact H. Qed.

Lemma train_one_channel (self : SpectralResidual) (df : DataFrame) :
  shape1 df = 1%Z ->
  _train self df
  = (assign_target self (Some 0%Z),
     _get_anomaly_score (assign_target self (Some 0%Z)) df None).
Proof.
  intros H. unfold _train, assert_then_score. rewrite H. reflexivity.
Qed.

Lemma valid_call_one_channel (self : SpectralResidual) (df : DataFrame) :
  shape1 df = 1%Z -> well_configured self -> wf_frame df ->
  long_enough self (len df) ->
  valid_call (assign_target self (Some 0%Z)) 0 df None.
Proof.
  intros Hd Hwc Hwf Hlong. unfold valid_call.
  repeat split; try (apply Hwc); try assumption; try (apply Hlong);
    unfold channel_in_range; try lia.
  all: try (rewrite Hd; lia).
  all: cbn [history_len]; try (destruct Hlong; lia).
Qed.

Lemma constructed_well_configured (cfg : SpectralResidualConfig) :
  (1 <= q cfg)%Z -> (1 <= local_wind_sz cfg)%Z -> (1 <= predicting_points cfg)%Z ->
  well_configured (constructed cfg).
Proof.
  intros Hq Hw Hp.
  unfold well_configured, smoothing_kernel_ok, trailing_kernel_ok. cbn.
  repeat split; trivial.
Qed.

(* ================================================================== *)
(** * A worked example: the unit impulse [1, 0]

    With [q = 1] and no padding the spectrum of [1, 0] is flat, the
    residual vanishes and the saliency map is [1, 0] again. *)

Lemma cis_zero_angle (N : R) : cis (- (2 * PI * 0 / N)) = (1, 0).
Proof.
  replace (- (2 * PI * 0 / N)) with 0 by (unfold Rdiv; ring).
  unfold cis. now rewrite cos_0, sin_0.
Qed.

Lemma dft_unit_impulse : dft (map RtoC [1; 0]) = [(1, 0); (1, 0)].
Proof.
  unfold dft. cbn [length seq map nth Csum fold_right Nat.mul Nat.add INR].
  rewrite cis_zero_angle.
  unfold Cmult, Cplus, RtoC. cbn [fst snd].
  repeat f_equal; ring.
Qed.

Lemma Cabs_one : Cabs (1, 0) = 1.
Proof.
  unfold Cabs. cbn [fst snd].
  replace (1 * 1 + 0 * 0) with 1 by ring. apply sqrt_1.
Qed.

Lemma Cabs_zero : Cabs (0, 0) = 0.
Proof.
  unfold Cabs. cbn [fst snd].
  replace (0 * 0 + 0 * 0) with 0 by ring. apply sqrt_0.
Qed.

Lemma Carg_one : Carg (1, 0) = 0.
Proof.
  unfold Carg, atan2. cbn [fst snd].
  destruct (Rlt_dec 0 1) as [_|H]; [|exfalso; apply H; lra].
  replace (0 / 1) with 0 by field. apply atan_0.
Qed.

Lemma Cexp_zero : Cexp (0, 0) = (1, 0).
Proof.
  unfold Cexp. cbn [fst snd]. rewrite exp_0, cos_0, sin_0.
  f_equal; ring.
Qed.

Lemma idft_flat :
  idft (@cons C (1, 0) (@cons C (1, 0) (@nil C))) = [(1, 0); (0, 0)].
Proof.
  unfold idft. cbn [length seq map nth Csum fold_right Nat.mul Nat.add INR].
  replace (2 * PI * 0 / (1 + 1)) with 0 by (unfold Rdiv; ring).
  replace (2 * PI * 1 / (1 + 1)) with PI by field.
  unfold cis. rewrite cos_0, sin_0, cos_PI, sin_PI.
  unfold Cscale, Cmult, Cplus. cbn [fst snd].
  repeat f_equal; field.
Qed.

Lemma saliency_unit_impulse : saliency_map_ref 1 [1; 0] = [1; 0].
Proof.
  unfold saliency_map_ref. rewrite dft_unit_impulse.
  cbn [map]. rewrite Cabs_one, ln_1, Carg_one.
  unfold moving_average, centered_window.
  cbn [length seq map filter Nat.leb Nat.add Nat.div Nat.sub Nat.divmod fst andb nth
       Rsum fold_right INR zip_with combine snd].
  replace (0 - (0 + 0) / 1) with 0 by field.
  rewrite Cexp_zero, idft_flat. cbn [map]. now rewrite Cabs_one, Cabs_zero.
Qed.

Lemma singleton_of_length {A : Type} (l : list A) (d : A) :
  length l = 1%nat -> l = [nth 0 l d].
Proof. destruct l as [|x [|y l]]; simpl; intros H; try discriminate. reflexivity. Qed.

Lemma local_average_unit_impulse : local_average_ref 21 [1; 0] = [1].
Proof.
  rewrite (singleton_of_length (local_average_ref 21 [1; 0]) 0)
    by (now rewrite local_average_ref_length).
  f_equal.
  pose proof (local_average_ref_nth 21 [1; 0] 1) as H.
  cbn [Nat.sub Nat.min seq map nth Rsum fold_right INR length] in H.
  rewrite H by lia. field.
Qed.

(** Arithmetic side conditions on the sample frames and detectors. *)
Ltac sample_arith :=
  cbv beta iota delta
    [channel_in_range long_enough pad_count history_len len shape1
     history_one series_zero two_points no_channels one_channel three_channels ramp
     constructed unpadded_config config_with_target default_config
     set_target_seq_index assign_target self_target_seq_index
     config q estimated_points predicting_points local_wind_sz target_seq_index
     self_local_wind_sz columns index];
  rewrite ?length_map, ?length_seq; cbn [length];
  lia.

Ltac sample_frame :=
  unfold wf_frame; cbv beta iota delta
    [history_one series_zero two_points no_channels one_channel three_channels ramp
     columns index];
  repeat constructor; rewrite ?length_map, ?length_seq; reflexivity.

Lemma valid_call_unit_impulse :
  valid_call (constructed (unpadded_config 1)) 0 series_zero (Some history_one).
Proof.
  unfold valid_call.
  split; [apply constructed_well_configured; sample_arith|].
  split; [reflexivity|].
  split; [sample_frame|].
  split; [sample_arith|].
  split; [split; [sample_frame|sample_arith]|].
  split; sample_arith.
Qed.

Lemma score_unit_impulse :
  _get_anomaly_score (constructed (unpadded_config 1)) series_zero (Some history_one)
  = Ok {| index := [1%Z]; columns := [[(0 - 1) / (1 + 1e-8)]] |}.
Proof.
  destruct (score_pipeline _ _ _ _ valid_call_unit_impulse)
    as (values & s & Hv & _ & Hs & _ & _ & _ & ->).
  cbn in Hv. injection Hv as <-.
  unfold trimmed_saliency_map in Hs. cbn [constructed config unpadded_config
    estimated_points Z.gtb Z.compare bind] in Hs.
  rewrite saliency_map_ok in Hs
    by (try (split; [sample_arith|reflexivity]); simpl; lia).
  cbn [bind] in Hs. injection Hs as <-.
  change (Pos.to_nat 1) with 1%nat.
  change (Z.to_nat (self_local_wind_sz (constructed (unpadded_config 1)))) with 21%nat.
  rewrite saliency_unit_impulse, local_average_unit_impulse.
  reflexivity.
Qed.

Lemma valid_call_fifty :
  valid_call (constructed (config_with_target 0)) 0 (ramp 50 50) (Some (ramp 0 50)).
Proof.
  unfold valid_call.
  split; [apply constructed_well_configured; sample_arith|].
  split; [reflexivity|].
  split; [sample_frame|].
  split; [sample_arith|].
  split; [split; [sample_frame|sample_arith]|].
  split; sample_arith.
Qed.

Lemma valid_call_one_channel_sample :
  valid_call (constructed (config_with_target 0)) 0 one_channel None.
Proof.
  unfold valid_call.
  split; [apply constructed_well_configured; sample_arith|].
  split; [reflexivity|].
  split; [sample_frame|].
  split; [sample_arith|].
  split; [exact I|].
  split; sample_arith.
Qed.

(** The length condition of [valid_call] cannot be dropped: with padding
    switched off and the default kernel width 3, the averaged log spectrum
    of a two-point series has three entries, the log spectrum two, and
    their difference raises. *)
Lemma short_series_raises :
  _get_anomaly_score (constructed (unpadded_config 3)) two_points None
  = Raise ValueError.
Proof. reflexivity. Qed.

(* ================================================================== *)
(** * Properties of the scorer *)

(** C1. Scoring returns exactly one score per timestamp of the scored
    series, under that series' own index, with or without a history prefix:
    every frame it returns has that shape, and on every valid call it does
    return one. *)
Theorem score_output_alignment (self : SpectralResidual) (ts : DataFrame)
        (prev : option DataFrame) :
  (forall df, _get_anomaly_score self ts prev = Ok df ->
     index df = index ts /\
     exists scores, columns df = [scores] /\ length scores = length (index ts)) /\
  (forall i, valid_call self i ts prev ->
     exists scores,
       _get_anomaly_score self ts prev
       = Ok {| index := index ts; columns := [scores] |} /\
       length scores = length (index ts)).
Proof.
  split; [apply score_aligned_when_ok|].
  intros i Hvalid.
  destruct (score_pipeline self i ts prev Hvalid) as (values & s & _ & _ & _ & _ & _ & _ & H).
  eexists. split; [exact H|].
  destruct (score_aligned_when_ok _ _ _ _ H) as (_ & scores & Hc & Hl).
  cbn [columns] in Hc. injection Hc as <-. exact Hl.
Qed.

(** A 50-point series scored with a 50-point history yields 50 scores. *)
Lemma score_output_alignment_witness :
  exists scores,
    _get_anomaly_score (constructed (config_with_target 0)) (ramp 50 50) (Some (ramp 0 50))
    = Ok {| index := index (ramp 50 50); columns := [scores] |} /\
    length scores = 50%nat.
Proof.
  destruct (proj2 (score_output_alignment (constructed (config_with_target 0))
                                          (ramp 50 50) (Some (ramp 0 50)))
                  0%Z valid_call_fifty) as (scores & H & Hl).
  exists scores. split; [exact H|].
  rewrite Hl. unfold ramp. cbn [index]. now rewrite length_map, length_seq.
Defined.

(** C2. In a valid call on a working array of length N, with saliency map
    [s] and the N - 1 trailing averages [a], the score array has length N,
    holds 0.0 at position 0 and [(s[k] - a[k-1]) / (a[k-1] + 1e-8)] at every
    position k in 1..N-1, and the returned column is its last
    [len(time_series)] entries. *)
Theorem score_assembly (self : SpectralResidual) (i : Z) (ts : DataFrame)
        (prev : option DataFrame) :
  valid_call self i ts prev ->
  exists values s a out,
    working_values i ts prev = Ok values /\
    trimmed_saliency_map self values = Ok s /\
    local_average self s (Z.of_nat (length values)) = Ok a /\
    length s = length values /\
    length a = (length values - 1)%nat /\
    assemble_scores s a = Ok out /\
    length out = length values /\
    nth 0 out 0 = 0 /\
    (forall k, (1 <= k < length values)%nat ->
               nth k out 0 = (nth k s 0 - nth (k - 1) a 0) / (nth (k - 1) a 0 + 1e-8)) /\
    _get_anomaly_score self ts prev
    = Ok {| index := index ts;
            columns := [skipn (length values - length (index ts)) out] |}.
Proof.
  intros Hvalid.
  destruct (score_pipeline self i ts prev Hvalid)
    as (values & s & Hv & Hn & Hs & Hls & Ha & Ho & H).
  set (a := local_average_ref (Z.to_nat (self_local_wind_sz self)) s) in *.
  assert (Hn1 : (1 <= length values)%nat).
  { destruct Hvalid as (_ & _ & _ & _ & _ & _ & Hlong & _). lia. }
  assert (Hla : length s = S (length a))
    by (unfold a; rewrite local_average_ref_length; lia).
  exists values, s, a, (scores_ref s a).
  repeat split; try assumption.
  - lia.
  - rewrite scores_ref_length; assumption.
  - intros k Hk. apply assembled_nth; [assumption|lia].
Qed.

Lemma score_assembly_witness :
  exists values s a out,
    working_values 0 (ramp 50 50) (Some (ramp 0 50)) = Ok values /\
    trimmed_saliency_map (constructed (config_with_target 0)) values = Ok s /\
    local_average (constructed (config_with_target 0)) s (Z.of_nat (length values)) = Ok a /\
    assemble_scores s a = Ok out /\
    nth 0 out 0 = 0 /\
    nth 1 out 0 = (nth 1 s 0 - nth 0 a 0) / (nth 0 a 0 + 1e-8) /\
    _get_anomaly_score (constructed (config_with_target 0)) (ramp 50 50) (Some (ramp 0 50))
    = Ok {| index := index (ramp 50 50);
            columns := [skipn (length values - length (index (ramp 50 50))) out] |}.
Proof.
  destruct (score_assembly _ _ _ _ valid_call_fifty)
    as (values & s & a & out & Hv & Hs & Ha & Hls & Hla & Ho & Hlo & H0 & Hk & H).
  exists values, s, a, out.
  repeat split; try assumption.
  apply (Hk 1%nat).
  destruct valid_call_fifty as (_ & _ & Hwf & Hi & Hh & _).
  destruct (working_values_ok _ _ _ Hwf Hi Hh) as (v & Hv' & Hn).
  rewrite Hv in Hv'. injection Hv' as <-.
  assert (E : (history_len (Some (ramp 0 50)) + len (ramp 50 50) = 100)%Z)
    by sample_arith.
  lia.
Defined.

(** C3. For a trimmed saliency map of length N >= 1 the trailing local
    average is the full convolution with [local_wind_sz] ones, cut to its
    first N entries, entry k (1-based) divided by [min(k, local_wind_sz)],
    last entry dropped: N - 1 values, the k-th being the mean of the
    [min(k, local_wind_sz)] saliency values ending at position k. *)
Theorem trailing_local_average (self : SpectralResidual) (s : list R) :
  trailing_kernel_ok self ->
  (1 <= length s)%nat ->
  local_average self s (Z.of_nat (length s))
  = Ok (local_average_ref (Z.to_nat (self_local_wind_sz self)) s) /\
  length (local_average_ref (Z.to_nat (self_local_wind_sz self)) s) = (length s - 1)%nat /\
  forall k, (1 <= k <= length s - 1)%nat ->
    nth (k - 1) (local_average_ref (Z.to_nat (self_local_wind_sz self)) s) 0
    = Rsum (map (fun j => nth j s 0)
                (seq (k - Z.to_nat (self_local_wind_sz self))
                     (Nat.min k (Z.to_nat (self_local_wind_sz self)))))
      / INR (Nat.min k (Z.to_nat (self_local_wind_sz self))).
Proof.
  intros Hwc Hs. split; [|split].
  - now apply local_average_ok.
  - apply local_average_ref_length.
  - intros k Hk. apply local_average_ref_nth; [|assumption].
    destruct Hwc as (Hw & _). lia.
Qed.

Lemma trailing_local_average_witness :
  local_average (constructed (unpadded_config 1)) [1; 0] 2 = Ok [1].
Proof.
  destruct (trailing_local_average (constructed (unpadded_config 1)) [1; 0]) as (H & _).
  - split; [sample_arith|reflexivity].
  - simpl. lia.
  - cbn [length Z.of_nat Pos.of_succ_nat Pos.succ] in H. rewrite H.
    f_equal. exact local_average_unit_impulse.
Defined.

(** C4 (as amended). In a valid call without history rows, the first
    returned score is exactly 0.0. *)
Theorem first_score_zero_without_history (self : SpectralResidual) (i : Z)
        (ts : DataFrame) (prev : option DataFrame) :
  valid_call self i ts prev ->
  history_len prev = 0%Z ->
  exists rest,
    _get_anomaly_score self ts prev
    = Ok {| index := index ts; columns := [0 :: rest] |}.
Proof.
  intros Hvalid Hh.
  destruct (score_pipeline self i ts prev Hvalid)
    as (values & s & _ & Hn & _ & _ & _ & _ & H).
  rewrite H. unfold len in Hn.
  replace (length values - length (index ts))%nat with 0%nat by lia.
  unfold scores_ref. cbn [skipn]. eexists. reflexivity.
Qed.

Lemma first_score_zero_without_history_witness :
  exists rest,
    _get_anomaly_score (constructed (config_with_target 0)) one_channel None
    = Ok {| index := [0%Z; 1%Z; 2%Z]; columns := [0 :: rest] |}.
Proof.
  exact (first_score_zero_without_history _ _ _ _ valid_call_one_channel_sample eq_refl).
Defined.

(** C4, the claim as stated fails: scoring the one-point series [0] with
    the one-point history [1] (q = 1, no padding) is a valid call whose
    first and only score is -1 / (1 + 1e-8). *)
Lemma first_score_with_history_nonzero :
  valid_call (constructed (unpadded_config 1)) 0 series_zero (Some history_one) /\
  _get_anomaly_score (constructed (unpadded_config 1)) series_zero (Some history_one)
  = Ok {| index := [1%Z]; columns := [[(0 - 1) / (1 + 1e-8)]] |} /\
  (0 - 1) / (1 + 1e-8) <> 0.
Proof.
  split; [exact valid_call_unit_impulse|].
  split; [exact score_unit_impulse|].
  apply Rlt_not_eq. apply Rdiv_neg_pos; lra.
Qed.

(** C5 (as amended). For a real array at least as long as the smoothing
    kernel, the saliency map is the magnitude of the inverse transform of
    [exp(residual + i * phase)], the residual being the log amplitude of the
    spectrum minus its centred moving average of width [q]; it has the
    length of the array. *)
Theorem saliency_map_formula (self : SpectralResidual) (x : list R) :
  smoothing_kernel_ok self ->
  (q (config self) <= Z.of_nat (length x))%Z ->
  _get_saliency_map self x = Ok (saliency_map_ref (Z.to_nat (q (config self))) x) /\
  length (saliency_map_ref (Z.to_nat (q (config self))) x) = length x.
Proof.
  intros Hwc Hx. split.
  - now apply saliency_map_ok.
  - apply saliency_map_ref_length.
Qed.

Lemma saliency_map_formula_witness :
  _get_saliency_map (constructed (unpadded_config 1)) [1; 0] = Ok [1; 0].
Proof.
  destruct (saliency_map_formula (constructed (unpadded_config 1)) [1; 0]) as (H & _).
  - split; [sample_arith|reflexivity].
  - simpl. lia.
  - rewrite H. f_equal. exact saliency_unit_impulse.
Defined.

(** C5, the claim as stated fails on arrays shorter than the kernel: with
    the default [q = 3] a one-point array gets a three-point saliency map
    and a two-point array raises. *)
Lemma saliency_map_short_input :
  (exists s, _get_saliency_map (constructed default_config) [1] = Ok s /\
             length s = 3%nat) /\
  _get_saliency_map (constructed default_config) [1; 2] = Raise ValueError.
Proof.
  split.
  - eexists. split; reflexivity.
  - reflexivity.
Qed.

(** C6. For an array of at least two points and [m = min(predicting_points,
    length - 1)], the gradient is the mean of the [m] slopes towards the
    final value (divisors m, m - 1, ..., 1), padding appends
    [estimated_points] copies of [values[length - m] + gradient * m], and
    with [estimated_points = 0] the saliency map is taken of the values
    themselves, the padder never being called. *)
Theorem padding_stage (self : SpectralResidual) (values : list R) :
  (1 <= predicting_points (config self))%Z ->
  (2 <= length values)%nat ->
  let m := Z.to_nat (Z.min (predicting_points (config self))
                           (Z.of_nat (length values) - 1)) in
  _compute_grad self values = Ok (Rsum (slopes m values) / INR m) /\
  length (slopes m values) = m /\
  (forall t, (t < m)%nat ->
     nth t (slopes m values) 0
     = (nth (length values - 1) values 0 - nth (length values - 1 - (m - t)) values 0)
       / INR (m - t)) /\
  (forall grad, _compute_grad self values = Ok grad ->
     (0 <= estimated_points (config self))%Z ->
     _pad self values
     = Ok (values ++ repeat (nth (length values - m) values 0 + grad * INR m)
                            (Z.to_nat (estimated_points (config self))))) /\
  ((0 < estimated_points (config self))%Z ->
     trimmed_saliency_map self values
     = (padded_values <- _pad self values ;;
        saliency_map <- _get_saliency_map self padded_values ;;
        Ok (py_slice None (Some (- estimated_points (config self))%Z) saliency_map))) /\
  (estimated_points (config self) = 0%Z ->
     trimmed_saliency_map self values = _get_saliency_map self values).
Proof.
  intros Hp Hn m.
  pose proof (compute_grad_ok self values Hp) as Hg. fold m in Hg.
  unfold gradient_ref in Hg.
  split; [apply Hg; lia|].
  split; [apply slopes_length|].
  split.
  { intros t Ht. unfold slopes.
    rewrite (nth_map_lt _ _ _ 0%nat) by (rewrite length_rev, length_seq; lia).
    rewrite rev_nth by (rewrite length_seq; lia).
    rewrite length_seq, seq_nth by lia.
    replace (1 + (m - S t))%nat with (m - t)%nat by lia. reflexivity. }
  split.
  { intros grad Hgrad He. rewrite Hg in Hgrad by lia. injection Hgrad as <-.
    rewrite pad_ok by lia. reflexivity. }
  split.
  - intros He. unfold trimmed_saliency_map.
    destruct (Z.gtb_spec (estimated_points (config self)) 0); [reflexivity|lia].
  - intros He. unfold trimmed_saliency_map. rewrite He. cbn [Z.gtb Z.compare bind].
    apply bind_ret_r.
Qed.

Lemma padding_stage_witness :
  _compute_grad (constructed default_config) [1; 2; 3] = Ok 1 /\
  _pad (constructed default_config) [1; 2; 3] = Ok [1; 2; 3; 4; 4; 4; 4; 4].
Proof.
  destruct (padding_stage (constructed default_config) [1; 2; 3])
    as (Hg & _ & _ & Hpad & _).
  - simpl. lia.
  - simpl. lia.
  - assert (E : Rsum (slopes 2 [1; 2; 3]) / INR 2 = 1).
    { unfold slopes.
      cbn [length seq rev app map nth Nat.sub Rsum fold_right INR]. field. }
    change (Z.to_nat (Z.min (predicting_points (config (constructed default_config)))
                            (Z.of_nat (length [1; 2; 3]) - 1))) with 2%nat in *.
    rewrite E in Hg. split; [exact Hg|].
    rewrite (Hpad 1 Hg) by (simpl; lia).
    cbn [length Nat.sub nth INR constructed config default_config estimated_points
         Z.to_nat Pos.to_nat Pos.iter_op Nat.add repeat app].
    replace (2 + 1 * (1 + 1)) with 4 by ring. reflexivity.
Defined.

(** C7 (as amended). Fitting raises the "missing target" error, whose
    message names the channel count, exactly when the channel count is not 1
    and no target is configured; it raises the "out of range" error exactly
    when the channel count is not 1 and the configured target is outside
    [0, channel count); in every other case it returns what scoring the
    training series returns, which is never a configuration error. *)
Theorem train_configuration_errors (self : SpectralResidual) (df : DataFrame) :
  (shape1 df <> 1%Z -> self_target_seq_index self = None ->
     _train self df = (self, Raise (RuntimeError (missing_target_msg (shape1 df)))) /\
     exists before after,
       missing_target_msg (shape1 df)
       = (before ++ string_of_Z (shape1 df) ++ "-variable" ++ after)%string) /\
  (forall t, shape1 df <> 1%Z -> self_target_seq_index self = Some t ->
     ~ (0 <= t < shape1 df)%Z ->
     _train self df = (self, Raise (AssertionError (out_of_range_msg (shape1 df) t)))) /\
  (forall t, shape1 df <> 1%Z -> self_target_seq_index self = Some t ->
     (0 <= t < shape1 df)%Z ->
     _train self df = (self, _get_anomaly_score self df None)) /\
  (shape1 df = 1%Z ->
     _train self df
     = (assign_target self (Some 0%Z),
        _get_anomaly_score (assign_target self (Some 0%Z)) df None)) /\
  (forall detector, is_config_error (_get_anomaly_score detector df None) = false).
Proof.
  split; [|split; [|split; [|split]]].
  - intros Hd Ht. split.
    + unfold _train. destruct (Z.eqb_spec (shape1 df) 1); [contradiction|].
      now rewrite Ht.
    + unfold missing_target_msg. do 2 eexists. reflexivity.
  - intros t Hd Ht Hr. unfold _train, assert_then_score.
    destruct (Z.eqb_spec (shape1 df) 1); [contradiction|]. rewrite Ht.
    destruct (Z.leb_spec 0 t); destruct (Z.ltb_spec t (shape1 df));
      cbn [andb]; try reflexivity. lia.
  - intros t Hd Ht Hr. unfold _train, assert_then_score.
    destruct (Z.eqb_spec (shape1 df) 1); [contradiction|]. rewrite Ht.
    destruct (Z.leb_spec 0 t); destruct (Z.ltb_spec t (shape1 df));
      cbn [andb]; try reflexivity; lia.
  - apply train_one_channel.
  - intros detector. apply plain_get_anomaly_score.
Qed.

Lemma train_configuration_errors_witness :
  _train (constructed default_config) three_channels
  = (constructed default_config,
     Raise (RuntimeError
              ("Attempting to use the SR algorithm on a 3-variable time series, "
               ++ "but didn't specify a `target_seq_index` indicating which "
               ++ "univariate is the target."))) /\
  _train (constructed (config_with_target 5)) three_channels
  = (constructed (config_with_target 5),
     Raise (AssertionError
              ("Expected `target_seq_index` to be between 0 and 3 "
               ++ "(the dimension of the transformed data), but got 5"))).
Proof.
  split.
  - destruct (train_configuration_errors (constructed default_config) three_channels)
      as (H & _).
    destruct H as (H & _); [discriminate|reflexivity|]. exact H.
  - destruct (train_configuration_errors (constructed (config_with_target 5))
                                         three_channels) as (_ & H & _).
    apply (H 5%Z); [discriminate|reflexivity|].
    unfold shape1, three_channels; simpl; lia.
Defined.

(** C7, the claim as stated fails: a series without channels and no
    configured target makes fitting raise the "missing target" error,
    although it does not have more than one channel. *)
Lemma train_raises_without_channels :
  shape1 no_channels = 0%Z /\
  snd (_train (constructed default_config) no_channels)
  = Raise (RuntimeError
             ("Attempting to use the SR algorithm on a 0-variable time series, "
              ++ "but didn't specify a `target_seq_index` indicating which "
              ++ "univariate is the target.")).
Proof. split; reflexivity. Qed.

(** C8. On a one-channel series, fitting with the target unset has the
    outcome of fitting with the target set to 0: the same scores or the same
    exception, and the same detector afterwards, so every later scoring call
    agrees as well; it succeeds whenever the series is long enough. *)
Theorem single_channel_auto_resolution (self : SpectralResidual) (df : DataFrame) :
  shape1 df = 1%Z ->
  _train (assign_target self None) df = _train (assign_target self (Some 0%Z)) df /\
  (forall ts prev,
     _get_anomaly_score (fst (_train (assign_target self None) df)) ts prev
     = _get_anomaly_score (fst (_train (assign_target self (Some 0%Z)) df)) ts prev) /\
  (well_configured self -> wf_frame df -> long_enough self (len df) ->
   exists scores,
     snd (_train (assign_target self None) df)
     = Ok {| index := index df; columns := [scores] |} /\
     length scores = length (index df)).
Proof.
  intros Hd.
  assert (E : _train (assign_target self None) df
              = _train (assign_target self (Some 0%Z)) df)
    by (rewrite !train_one_channel by assumption; reflexivity).
  split; [exact E|]. split; [intros; now rewrite E|].
  intros Hwc Hwf Hlong.
  rewrite train_one_channel by assumption. cbn [snd].
  pose proof (valid_call_one_channel self df Hd Hwc Hwf Hlong) as Hvalid.
  destruct (score_pipeline _ _ _ _ Hvalid) as (values & s & _ & _ & _ & _ & _ & _ & H).
  change (assign_target (assign_target self None) (Some 0%Z))
    with (assign_target self (Some 0%Z)).
  eexists. split; [exact H|].
  destruct (score_aligned_when_ok _ _ _ _ H) as (_ & scores & Hc & Hl).
  cbn [columns] in Hc. injection Hc as <-. exact Hl.
Qed.

Lemma single_channel_auto_resolution_witness :
  _train (constructed default_config) one_channel
  = _train (constructed (config_with_target 0)) one_channel /\
  exists scores,
    snd (_train (constructed default_config) one_channel)
    = Ok {| index := [0%Z; 1%Z; 2%Z]; columns := [scores] |} /\
    length scores = 3%nat.
Proof.
  destruct (single_channel_auto_resolution (constructed default_config) one_channel
                                           eq_refl) as (E & _ & H).
  split; [exact E|].
  apply H.
  - apply constructed_well_configured; sample_arith.
  - sample_frame.
  - split; sample_arith.
Defined.

(** C9 (as amended). After a fit that raises no configuration error the
    target is set and lies in [0, channel count) of the fitted series; a
    fit on a series whose channel count is not 1 leaves the detector as it
    was; every fit on a one-channel series assigns 0 to the target,
    whatever it held. *)
Theorem target_index_after_fit (self : SpectralResidual) (df : DataFrame) :
  (is_config_error (snd (_train self df)) = false ->
   exists t, self_target_seq_index (fst (_train self df)) = Some t /\
             (0 <= t < shape1 df)%Z) /\
  (shape1 df <> 1%Z -> fst (_train self df) = self) /\
  (shape1 df = 1%Z -> fst (_train self df) = assign_target self (Some 0%Z)).
Proof.
  split; [|split].
  - unfold _train, assert_then_score.
    destruct (Z.eqb_spec (shape1 df) 1) as [E|E].
    + intros _. exists 0%Z. split; [reflexivity|lia].
    + destruct (self_target_seq_index self) as [t|] eqn:Ht; cbn [fst snd].
      * destruct (Z.leb_spec 0 t); destruct (Z.ltb_spec t (shape1 df));
          cbn [andb]; try discriminate.
        intros _. exists t. split; [assumption|lia].
      * discriminate.
  - intros Hd. unfold _train.
    destruct (Z.eqb_spec (shape1 df) 1); [contradiction|].
    destruct (self_target_seq_index self); reflexivity.
  - intros Hd. now rewrite train_one_channel.
Qed.

Lemma target_index_after_fit_witness :
  self_target_seq_index
    (fst (_train (constructed (config_with_target 2)) three_channels)) = Some 2%Z /\
  fst (_train (constructed (config_with_target 2)) one_channel)
  = assign_target (constructed (config_with_target 2)) (Some 0%Z).
Proof.
  split.
  - destruct (target_index_after_fit (constructed (config_with_target 2)) three_channels)
      as (_ & H & _).
    rewrite H; [reflexivity|discriminate].
  - destruct (target_index_after_fit (constructed (config_with_target 2)) one_channel)
      as (_ & _ & H).
    apply H. reflexivity.
Defined.

Lemma valid_call_three_channels :
  valid_call (constructed (config_with_target 2)) 2 three_channels None.
Proof.
  unfold valid_call.
  split; [apply constructed_well_configured; sample_arith|].
  split; [reflexivity|].
  split; [sample_frame|].
  split; [sample_arith|].
  split; [exact I|].
  split; sample_arith.
Qed.

(** C9, the claim as stated fails: a detector configured with target 2 is
    fitted on a three-channel series (the fit succeeds and keeps target 2)
    and then on a one-channel series, which succeeds and changes the target
    to 0. *)
Lemma target_overwritten_by_later_fit :
  is_ok (snd (_train (constructed (config_with_target 2)) three_channels)) = true /\
  self_target_seq_index (fst (_train (constructed (config_with_target 2)) three_channels))
  = Some 2%Z /\
  is_ok (snd (_train (fst (_train (constructed (config_with_target 2)) three_channels))
                     one_channel)) = true /\
  self_target_seq_index
    (fst (_train (fst (_train (constructed (config_with_target 2)) three_channels))
                 one_channel))
  = Some 0%Z.
Proof.
  assert (E1 : _train (constructed (config_with_target 2)) three_channels
               = (constructed (config_with_target 2),
                  _get_anomaly_score (constructed (config_with_target 2))
                                     three_channels None)) by reflexivity.
  rewrite E1. cbn [fst snd].
  rewrite (train_one_channel _ one_channel eq_refl). cbn [fst snd].
  split; [|split; [reflexivity|split; [|reflexivity]]].
  - destruct (score_pipeline _ _ _ _ valid_call_three_channels)
      as (values & s & _ & _ & _ & _ & _ & _ & H).
    now rewrite H.
  - assert (Hvalid : valid_call (assign_target (constructed (config_with_target 2))
                                               (Some 0%Z)) 0 one_channel None).
    { apply valid_call_one_channel.
      - reflexivity.
      - apply constructed_well_configured; sample_arith.
      - sample_frame.
      - split; sample_arith. }
    destruct (score_pipeline _ _ _ _ Hvalid) as (values & s & _ & _ & _ & _ & _ & _ & H).
    now rewrite H.
Qed.

(** C10. On a one-channel series fitting assigns 0 to the target before
    the range check, whatever was configured (unset, negative, too large):
    the check passes, the outcome does not depend on the configured value
    and is never a configuration error, and fitting succeeds whenever the
    series is long enough. *)
Theorem single_channel_ignores_target (self : SpectralResidual) (df : DataFrame) :
  shape1 df = 1%Z ->
  _train self df
  = (assign_target self (Some 0%Z),
     _get_anomaly_score (assign_target self (Some 0%Z)) df None) /\
  (forall t, _train (assign_target self t) df = _train self df) /\
  is_config_error (snd (_train self df)) = false /\
  (well_configured self -> wf_frame df -> long_enough self (len df) ->
   is_ok (snd (_train self df)) = true).
Proof.
  intros Hd. split; [now apply train_one_channel|]. split; [|split].
  - intros t. rewrite !train_one_channel by assumption. reflexivity.
  - rewrite train_one_channel by assumption. apply plain_get_anomaly_score.
  - intros Hwc Hwf Hlong. rewrite train_one_channel by assumption. cbn [snd].
    pose proof (valid_call_one_channel self df Hd Hwc Hwf Hlong) as Hvalid.
    destruct (score_pipeline _ _ _ _ Hvalid) as (values & s & _ & _ & _ & _ & _ & _ & H).
    now rewrite H.
Qed.

Lemma single_channel_ignores_target_witness :
  self_target_seq_index (fst (_train (constructed (config_with_target (-7))) one_channel))
  = Some 0%Z /\
  is_ok (snd (_train (constructed (config_with_target (-7))) one_channel)) = true.
Proof.
  destruct (single_channel_ignores_target (constructed (config_with_target (-7)))
                                          one_channel eq_refl) as (E & _ & _ & H).
  split.
  - rewrite E. reflexivity.
  - apply H.
    + apply constructed_well_configured; sample_arith.
    + sample_frame.
    + split; sample_arith.
Defined.

(* ================================================================== *)
(** * Further properties: construction *)

Lemma Rsum_repeat (c : R) (n : nat) : Rsum (repeat c n) = INR n * c.
Proof.
  induction n as [|n IH]; [simpl; ring|].
  cbn [repeat Rsum fold_right]. fold (Rsum (repeat c n)). rewrite IH, S_INR. ring.
Qed.

Lemma Rsum_const {A : Type} (c : R) (l : list A) :
  Rsum (map (fun _ => c) l) = INR (length l) * c.
Proof.
  induction l as [|x l IH]; [simpl; ring|].
  cbn [map Rsum fold_right length]. fold (Rsum (map (fun _ => c) l)).
  rewrite IH, S_INR. ring.
Qed.

(** X1. The constructor raises exactly when [q] or [local_wind_sz] is
    negative.  Otherwise it keeps the configuration and builds a smoothing
    kernel of [q] entries, which sum to 1 when [q >= 1], and a trailing
    kernel of [local_wind_sz] ones; without a configuration it uses the
    default one. *)
Theorem constructor_outcome (cfg : SpectralResidualConfig) :
  (SpectralResidual_init (Some cfg) = Raise ValueError
   <-> (q cfg < 0)%Z \/ (local_wind_sz cfg < 0)%Z) /\
  (forall self, SpectralResidual_init (Some cfg) = Ok self ->
     config self = cfg /\
     self_local_wind_sz self = local_wind_sz cfg /\
     length (q_conv_map self) = Z.to_nat (q cfg) /\
     local_conv_map self = repeat 1 (Z.to_nat (local_wind_sz cfg)) /\
     ((1 <= q cfg)%Z -> Rsum (q_conv_map self) = 1)) /\
  SpectralResidual_init None = SpectralResidual_init (Some default_config).
Proof.
  split; [|split; [|reflexivity]].
  - unfold SpectralResidual_init, np_ones.
    destruct (Z.ltb_spec (q cfg) 0); destruct (Z.ltb_spec (local_wind_sz cfg) 0);
      cbn [bind]; split; intros Hr; try reflexivity; try discriminate; lia.
  - intros self H. unfold SpectralResidual_init, np_ones in H.
    destruct (Z.ltb_spec (q cfg) 0); [discriminate|].
    destruct (Z.ltb_spec (local_wind_sz cfg) 0); [discriminate|].
    cbn [bind] in H. injection H as <-.
    cbn [config self_local_wind_sz q_conv_map local_conv_map].
    repeat split.
    + now rewrite length_map, repeat_length.
    + intros Hq. rewrite map_repeat, Rsum_repeat, IZR_to_nat by lia.
      field. apply not_0_IZR. lia.
Qed.

(* ================================================================== *)
(** * Further properties: the saliency map on every input *)

Lemma broadcast_singleton_l {A B D : Type} (f : A -> B -> D) (x : A) (b : list B) :
  broadcast f [x] b = Ok (map (f x) b).
Proof.
  unfold broadcast. destruct b as [|y [|y' b]]; reflexivity.
Qed.

Lemma broadcast_singleton_r {A B D : Type} (f : A -> B -> D) (a : list A) (y : B) :
  broadcast f a [y] = Ok (map (fun x => f x y) a).
Proof.
  unfold broadcast. destruct a as [|x [|x' a]]; reflexivity.
Qed.

Lemma broadcast_mismatch {A B D : Type} (f : A -> B -> D) (a : list A) (b : list B) :
  length a <> length b -> length a <> 1%nat -> length b <> 1%nat ->
  broadcast f a b = Raise ValueError.
Proof.
  intros Hab Ha Hb. unfold broadcast.
  destruct (Nat.eqb_spec (length a) (length b)); [contradiction|].
  destruct a as [|x [|x' a]]; destruct b as [|y [|y' b]]; simpl in *;
    try reflexivity; lia.
Qed.

Lemma np_convolve_same_length (a v : list R) :
  (1 <= length a)%nat -> (1 <= length v)%nat ->
  exists r, np_convolve a v Same = Ok r /\
            length r = Nat.max (length a) (length v).
Proof.
  intros Ha Hv. unfold np_convolve.
  destruct a as [|x a]; [simpl in Ha; lia|]. destruct v as [|y v]; [simpl in Hv; lia|].
  eexists. split; [reflexivity|].
  rewrite length_firstn, length_skipn, conv_full_length.
  set (M := length (x :: a)) in *. set (N := length (y :: v)) in *.
  assert ((Nat.min M N - 1) / 2 <= Nat.min M N - 1)%nat
    by (apply Nat.Div0.div_le_upper_bound; lia).
  lia.
Qed.

(** The three ways [_get_saliency_map] fails. *)
Lemma saliency_map_raises (self : SpectralResidual) (x : list R) :
  length x = 0%nat \/ length (q_conv_map self) = 0%nat \/
  (1 < length x < length (q_conv_map self))%nat ->
  _get_saliency_map self x = Raise ValueError.
Proof.
  intros H. unfold _get_saliency_map.
  destruct x as [|x0 x]; [reflexivity|].
  rewrite np_fft_ok by (simpl; lia). cbn [bind].
  set (spectrum := dft (map RtoC (x0 :: x))).
  assert (Hlen : length spectrum = length (x0 :: x))
    by (unfold spectrum; now rewrite dft_length, length_map).
  destruct (q_conv_map self) as [|k0 k] eqn:Hk.
  { destruct (map _ spectrum); reflexivity. }
  destruct H as [H|[H|H]]; [simpl in H; lia|simpl in H; lia|].
  destruct (np_convolve_same_length (map (fun z => ln (Cabs z)) spectrum) (k0 :: k))
    as (avg & -> & Havg); [rewrite length_map; lia|simpl; lia|].
  cbn [bind]. rewrite length_map, Hlen in Havg.
  rewrite broadcast_mismatch; [reflexivity| | |]; rewrite ?length_map, ?Hlen, ?Havg; lia.
Qed.

Lemma saliency_map_returns (self : SpectralResidual) (x : list R) :
  (1 <= length x)%nat -> (1 <= length (q_conv_map self))%nat ->
  (length (q_conv_map self) <= length x)%nat \/ length x = 1%nat ->
  exists s, _get_saliency_map self x = Ok s /\
            length s = Nat.max (length x) (length (q_conv_map self)).
Proof.
  intros Hx Hk Hcase. unfold _get_saliency_map.
  rewrite np_fft_ok by lia. cbn [bind].
  set (spectrum := dft (map RtoC x)).
  assert (Hlen : length spectrum = length x)
    by (unfold spectrum; now rewrite dft_length, length_map).
  destruct (np_convolve_same_length (map (fun z => ln (Cabs z)) spectrum) (q_conv_map self))
    as (avg & -> & Havg); [rewrite length_map; lia|lia|].
  cbn [bind]. rewrite length_map, Hlen in Havg.
  destruct (Nat.le_gt_cases (length (q_conv_map self)) (length x)) as [Hle|Hgt].
  - rewrite broadcast_same_length by (rewrite length_map; lia). cbn [bind].
    rewrite broadcast_same_length
      by (rewrite !length_map, zip_with_length, length_map; lia).
    cbn [bind].
    rewrite np_ifft_ok
      by (rewrite length_map, !zip_with_length, !length_map, zip_with_length, length_map;
          lia).
    eexists. split; [reflexivity|].
    rewrite length_map, idft_length, length_map, !zip_with_length, !length_map,
      zip_with_length, length_map. lia.
  - assert (Hone : length x = 1%nat) by lia.
    destruct spectrum as [|z0 [|z1 spectrum]]; simpl in Hlen; try lia.
    cbn [map]. rewrite broadcast_singleton_l. cbn [bind].
    rewrite broadcast_singleton_r. cbn [bind].
    rewrite np_ifft_ok by (rewrite !length_map; lia).
    eexists. split; [reflexivity|].
    rewrite length_map, idft_length, !length_map. lia.
Qed.

(** X2. [_get_saliency_map] returns exactly when the array and the kernel
    are not empty and the kernel is not longer than the array, or the array
    has a single point; the map then has [max(len(values), len(kernel))]
    entries.  In every other case it raises [ValueError]. *)
Theorem saliency_map_outcome (self : SpectralResidual) (x : list R) :
  ((1 <= length x)%nat /\ (1 <= length (q_conv_map self))%nat /\
   ((length (q_conv_map self) <= length x)%nat \/ length x = 1%nat) ->
   exists s, _get_saliency_map self x = Ok s /\
             length s = Nat.max (length x) (length (q_conv_map self))) /\
  (~ ((1 <= length x)%nat /\ (1 <= length (q_conv_map self))%nat /\
      ((length (q_conv_map self) <= length x)%nat \/ length x = 1%nat)) ->
   _get_saliency_map self x = Raise ValueError).
Proof.
  split.
  - intros (Hx & Hk & Hcase). now apply saliency_map_returns.
  - intros H. apply saliency_map_raises. lia.
Qed.






Lemma saliency_map_outcome_witness :
  (exists s, _get_saliency_map (constructed default_config) [5; 7; 6] = Ok s /\
             length s = 3%nat) /\
  _get_saliency_map (constructed default_config) [5; 7] = Raise ValueError.
Proof.
  split.
  - apply (proj1 (saliency_map_outcome (constructed default_config) [5; 7; 6])).
    simpl. lia.
  - apply (proj2 (saliency_map_outcome (constructed default_config) [5; 7])).
    simpl. lia.
Defined.

(* ================================================================== *)
(** * Further properties: gradient and padding *)

Lemma arithmetic_progression_length (a b : R) (n : nat) :
  length (arithmetic_progression a b n) = n.
Proof. unfold arithmetic_progression. now rewrite length_map, length_seq. Qed.

Lemma arithmetic_progression_nth (a b : R) (n k : nat) :
  (k < n)%nat -> nth k (arithmetic_progression a b n) 0 = a + b * INR k.
Proof.
  intros H. unfold arithmetic_progression.
  rewrite (nth_map_lt _ _ _ 0%nat) by (rewrite length_seq; lia).
  now rewrite seq_nth by lia.
Qed.

Lemma slopes_arithmetic_progression (a b : R) (n m : nat) :
  (m < n)%nat ->
  Rsum (slopes m (arithmetic_progression a b n)) = INR m * b.
Proof.
  intros Hm. unfold slopes. rewrite arithmetic_progression_length.
  rewrite (Rsum_map_ext_in _ (fun _ => b)).
  - now rewrite Rsum_const, length_rev, length_seq.
  - intros d Hd. apply in_rev, in_seq in Hd.
    rewrite !arithmetic_progression_nth by lia.
    rewrite (minus_INR (n - 1) d) by lia.
    field. apply not_0_INR. lia.
Qed.

(** X4. On an arithmetic progression of at least two points the gradient
    is the common difference, and padding continues the line: every
    appended point is the next term of the progression. *)
Theorem padding_extrapolates_line (self : SpectralResidual) (a b : R) (n : nat) :
  (1 <= predicting_points (config self))%Z ->
  (2 <= n)%nat ->
  _compute_grad self (arithmetic_progression a b n) = Ok b /\
  ((0 <= estimated_points (config self))%Z ->
   _pad self (arithmetic_progression a b n)
   = Ok (arithmetic_progression a b n
         ++ repeat (a + b * INR n) (Z.to_nat (estimated_points (config self))))).
Proof.
  intros Hp Hn.
  pose proof (arithmetic_progression_length a b n) as Hlen.
  set (m := Z.to_nat (Z.min (predicting_points (config self)) (Z.of_nat n - 1))).
  assert (Hm : (1 <= m < n)%nat) by (unfold m; lia).
  assert (Hg : gradient_ref m (arithmetic_progression a b n) = b).
  { unfold gradient_ref. rewrite slopes_arithmetic_progression by lia.
    field. apply not_0_INR. lia. }
  split.
  - rewrite compute_grad_ok by lia. rewrite Hlen. fold m. now rewrite Hg.
  - intros He. rewrite pad_ok by lia. rewrite Hlen. fold m.
    unfold padded_ref. rewrite Hg, Hlen, arithmetic_progression_nth by lia.
    do 3 f_equal. rewrite minus_INR by lia. ring.
Qed.

Lemma padding_extrapolates_line_witness :
  _compute_grad (constructed default_config) (arithmetic_progression 1 2 4) = Ok 2 /\
  _pad (constructed default_config) (arithmetic_progression 1 2 4)
  = Ok (arithmetic_progression 1 2 4 ++ repeat (1 + 2 * INR 4) 5).
Proof.
  destruct (padding_extrapolates_line (constructed default_config) 1 2 4) as (Hg & Hpad).
  - simpl. lia.
  - lia.
  - split; [exact Hg|]. apply Hpad. simpl. lia.
Defined.

(** X5. With [predicting_points >= 1], padding an empty array raises
    [IndexError] (as the gradient does), padding a non-empty array by a
    negative count raises [ValueError], and otherwise the result is the
    array itself followed by [estimated_points] copies of one value. *)
Theorem pad_outcome (self : SpectralResidual) (values : list R) :
  (1 <= predicting_points (config self))%Z ->
  (values = [] ->
   _compute_grad self values = Raise IndexError /\ _pad self values = Raise IndexError) /\
  (values <> [] -> (estimated_points (config self) < 0)%Z ->
   _pad self values = Raise ValueError) /\
  (values <> [] -> (0 <= estimated_points (config self))%Z ->
   exists item,
     _pad self values
     = Ok (values ++ repeat item (Z.to_nat (estimated_points (config self))))).
Proof.
  intros Hp. split; [|split].
  - intros ->. split; reflexivity.
  - intros Hne He. assert (Hn : (1 <= length values)%nat)
      by (destruct values; [contradiction|simpl; lia]).
    unfold _pad. rewrite compute_grad_ok by lia. cbn [bind].
    set (mz := Z.min (predicting_points (config self)) (Z.of_nat (length values) - 1)).
    assert (Hidx : exists v, py_index values (- mz) = Ok v).
    { destruct (Z.eq_dec mz 0) as [E|E].
      - rewrite E. exists (nth 0 values 0). apply (py_index_nonneg values 0 0). lia.
      - eexists. apply (py_index_neg values mz 0). lia. }
    destruct Hidx as [v ->]. cbn [bind].
    unfold np_pad. destruct (Z.ltb_spec (estimated_points (config self)) 0); [reflexivity|lia].
  - intros Hne He. assert (Hn : (1 <= length values)%nat)
      by (destruct values; [contradiction|simpl; lia]).
    unfold _pad. rewrite compute_grad_ok by lia. cbn [bind].
    set (mz := Z.min (predicting_points (config self)) (Z.of_nat (length values) - 1)).
    assert (Hidx : exists v, py_index values (- mz) = Ok v).
    { destruct (Z.eq_dec mz 0) as [E|E].
      - rewrite E. exists (nth 0 values 0). apply (py_index_nonneg values 0 0). lia.
      - eexists. apply (py_index_neg values mz 0). lia. }
    destruct Hidx as [v ->]. cbn [bind].
    unfold np_pad. destruct (Z.ltb_spec (estimated_points (config self)) 0); [lia|].
    eexists. reflexivity.
Qed.

Lemma pad_outcome_witness :
  _pad (constructed default_config) [] = Raise IndexError /\
  exists item, _pad (constructed default_config) [3; 4] = Ok ([3; 4] ++ repeat item 5).
Proof.
  destruct (pad_outcome (constructed default_config) []) as (H1 & _); [simpl; lia|].
  destruct (pad_outcome (constructed default_config) [3; 4]) as (_ & _ & H3); [simpl; lia|].
  split; [apply H1; reflexivity|].
  apply H3; [discriminate|simpl; lia].
Defined.

(* ================================================================== *)
(** * Further properties: what scoring reads and when it fails *)

Lemma assemble_scores_head (s a out : list R) :
  assemble_scores s a = Ok out -> exists rel, out = 0 :: rel.
Proof.
  unfold assemble_scores. intros H.
  apply bind_Ok_inv in H. destruct H as (num & _ & H).
  apply bind_Ok_inv in H. destruct H as (rel & _ & H).
  injection H as <-. now exists rel.
Qed.

Lemma py_slice_all {A : Type} (l : list A) : py_slice (Some 0%Z) None l = l.
Proof.
  unfold py_slice, py_bound. cbn [Z.ltb Z.compare].
  rewrite Z.min_l by lia. cbn [Z.to_nat skipn].
  rewrite Z.sub_0_r, Nat2Z.id. apply firstn_all.
Qed.

(** X6. Scoring a series without rows never returns, whatever the
    configuration and the history: [output_values[-0:]] is the whole score
    array, which always holds at least the leading 0.0 and so cannot fit an
    empty index. *)
Theorem score_empty_series_raises (self : SpectralResidual) (ts : DataFrame)
        (prev : option DataFrame) :
  index ts = [] ->
  is_ok (_get_anomaly_score self ts prev) = false.
Proof.
  intros Hidx.
  destruct (_get_anomaly_score self ts prev) as [df|e] eqn:E; [|reflexivity].
  exfalso. unfold _get_anomaly_score in E.
  destruct (self_target_seq_index self) as [i|]; [|discriminate].
  apply bind_Ok_inv in E. destruct E as (values & _ & E).
  apply bind_Ok_inv in E. destruct E as (s & _ & E).
  apply bind_Ok_inv in E. destruct E as (a & _ & E).
  apply bind_Ok_inv in E. destruct E as (out & Hout & E).
  apply assemble_scores_head in Hout. destruct Hout as (rel & ->).
  unfold len in E. rewrite Hidx in E. cbn [length Z.of_nat Z.opp] in E.
  rewrite py_slice_all in E. discriminate E.
Qed.

Lemma score_empty_series_raises_witness :
  is_ok (_get_anomaly_score (constructed (config_with_target 0))
                            {| index := []; columns := [[]] |}
                            (Some one_channel)) = false.
Proof.
  exact (score_empty_series_raises (constructed (config_with_target 0))
                                   {| index := []; columns := [[]] |}
                                   (Some one_channel) eq_refl).
Defined.

(** X7. Scoring reads the scored series through its index and its target
    channel only, and the history through its target channel only: frames
    that agree on these get the same outcome, whatever their other channels
    and whatever the timestamps of the history. *)
Theorem score_reads_target_channel_only (self : SpectralResidual) (i : Z)
        (ts ts' : DataFrame) (prev prev' : option DataFrame) :
  self_target_seq_index self = Some i ->
  index ts = index ts' ->
  values_col ts i = values_col ts' i ->
  match prev, prev' with
  | None, None => True
  | Some p, Some p' => values_col p i = values_col p' i
  | _, _ => False
  end ->
  _get_anomaly_score self ts prev = _get_anomaly_score self ts' prev'.
Proof.
  intros Ht Hidx Hcol Hprev. unfold _get_anomaly_score. rewrite Ht.
  assert (Hw : working_values i ts prev = working_values i ts' prev').
  { unfold working_values.
    destruct prev as [p|]; destruct prev' as [p'|]; try contradiction.
    - now rewrite Hprev, Hcol.
    - exact Hcol. }
  rewrite Hw. unfold len. rewrite Hidx. reflexivity.
Qed.

Lemma score_reads_target_channel_only_witness :
  _get_anomaly_score (constructed (config_with_target 0)) one_channel None
  = _get_anomaly_score (constructed (config_with_target 0)) three_channels None.
Proof.
  apply (score_reads_target_channel_only (constructed (config_with_target 0)) 0
           one_channel three_channels None None); first [reflexivity | exact I].
Defined.

Lemma py_index_wraps {A : Type} (l : list A) (k : Z) :
  (1 <= k <= Z.of_nat (length l))%Z ->
  py_index l (- k) = py_index l (Z.of_nat (length l) - k).
Proof.
  intros Hk. unfold py_index.
  destruct (Z.ltb_spec (- k) 0); [|lia].
  destruct (Z.ltb_spec (Z.of_nat (length l) - k) 0); [lia|].
  replace (- k + Z.of_nat (length l))%Z with (Z.of_nat (length l) - k)%Z by lia.
  reflexivity.
Qed.

Lemma py_index_out_of_range {A : Type} (l : list A) (i : Z) :
  (Z.of_nat (length l) <= i)%Z \/ (i < - Z.of_nat (length l))%Z ->
  py_index l i = Raise IndexError.
Proof.
  intros Hi. unfold py_index.
  destruct (Z.ltb_spec i 0).
  - destruct (Z.leb_spec 0 (i + Z.of_nat (length l))); [lia|reflexivity].
  - destruct (Z.leb_spec 0 i); [|reflexivity].
    destruct (Z.ltb_spec i (Z.of_nat (length l))); [lia|reflexivity].
Qed.

(** X8. Scoring indexes the channels the Python way: a target [-k] with
    [1 <= k <= channel count] selects the same channel as
    [channel count - k], and a target outside
    [-channel count, channel count) raises [IndexError]. *)
Theorem score_target_indexing (self : SpectralResidual) (ts : DataFrame) :
  (forall k, (1 <= k <= shape1 ts)%Z ->
     _get_anomaly_score (assign_target self (Some (- k)%Z)) ts None
     = _get_anomaly_score (assign_target self (Some (shape1 ts - k)%Z)) ts None) /\
  (forall i prev, (shape1 ts <= i)%Z \/ (i < - shape1 ts)%Z ->
     _get_anomaly_score (assign_target self (Some i)) ts prev = Raise IndexError).
Proof.
  split.
  - intros k Hk. unfold _get_anomaly_score.
    cbn [self_target_seq_index assign_target config set_target_seq_index target_seq_index
         working_values].
    unfold values_col, shape1 in *. now rewrite py_index_wraps.
  - intros i prev Hi. unfold _get_anomaly_score.
    cbn [self_target_seq_index assign_target config set_target_seq_index target_seq_index].
    unfold working_values, values_col, shape1 in *.
    rewrite (py_index_out_of_range (columns ts) i Hi).
    destruct prev as [p|]; [|reflexivity].
    destruct (py_index (columns p) i) as [h|e] eqn:E; [reflexivity|].
    unfold py_index in E.
    destruct ((0 <=? _) && _)%Z; [|now injection E as <-].
    destruct (nth_error (columns p) _); [discriminate|now injection E as <-].
Qed.

Lemma score_target_indexing_witness :
  _get_anomaly_score (constructed (config_with_target (-1))) three_channels None
  = _get_anomaly_score (constructed (config_with_target 2)) three_channels None /\
  _get_anomaly_score (constructed (config_with_target 3)) three_channels None
  = Raise IndexError.
Proof.
  destruct (score_target_indexing (constructed default_config) three_channels)
    as (Hwrap & Hout).
  split.
  - apply (Hwrap 1%Z). unfold shape1, three_channels. simpl. lia.
  - apply (Hout 3%Z None). unfold shape1, three_channels. simpl. lia.
Defined.

(** X9. A history is context only: when a frame [whole] holds, in the
    target channel, the history's values followed by the series' values,
    scoring the series with the history returns the scores of [whole]
    without their first [len(history)] entries. *)
Theorem history_is_context_only (self : SpectralResidual) (i : Z)
        (ts prev whole : DataFrame) (h v : list R) :
  valid_call self i ts (Some prev) ->
  values_col prev i = Ok h ->
  values_col ts i = Ok v ->
  wf_frame whole ->
  channel_in_range i whole ->
  values_col whole i = Ok (h ++ v) ->
  exists all_scores,
    _get_anomaly_score self whole None
    = Ok {| index := index whole; columns := [all_scores] |} /\
    _get_anomaly_score self ts (Some prev)
    = Ok {| index := index ts; columns := [skipn (length h) all_scores] |}.
Proof.
  intros Hvalid Hh Hv Hwf Hi Hwhole.
  pose proof Hvalid as (Hwc & Ht & Hwts & Hits & (Hwp & Hip) & HL & Hlong).
  destruct (values_col_ok prev i Hwp Hip) as (h' & Hh' & Hlh).
  rewrite Hh in Hh'. injection Hh' as <-.
  destruct (values_col_ok ts i Hwts Hits) as (v' & Hv' & Hlv).
  rewrite Hv in Hv'. injection Hv' as <-.
  destruct (values_col_ok whole i Hwf Hi) as (w & Hw & Hlw).
  rewrite Hwhole in Hw. injection Hw as <-. rewrite length_app in Hlw.
  assert (Hvalid' : valid_call self i whole None).
  { unfold valid_call. repeat split; try assumption; try (apply Hwc).
    - apply Hi.
    - apply Hi.
    - unfold len in *. lia.
    - cbn [history_len] in *. unfold len in *. destruct Hlong. lia.
    - cbn [history_len] in *. unfold len in *. destruct Hlong as [_ Hq].
      replace (0 + Z.of_nat (length (index whole)))%Z
        with (Z.of_nat (length (index prev)) + Z.of_nat (length (index ts)))%Z by lia.
      exact Hq. }
  destruct (score_pipeline _ _ _ _ Hvalid)
    as (values & s & Hwv & _ & Hs & _ & _ & _ & H).
  destruct (score_pipeline _ _ _ _ Hvalid')
    as (values' & s' & Hwv' & _ & Hs' & _ & _ & _ & H').
  unfold working_values in Hwv, Hwv'. rewrite Hh, Hv in Hwv. cbn [bind] in Hwv.
  injection Hwv as <-. rewrite Hwhole in Hwv'. injection Hwv' as <-.
  rewrite Hs in Hs'. injection Hs' as <-.
  eexists. split.
  - rewrite H'. rewrite length_app, <- Hlw, Nat.sub_diag. cbn [skipn]. reflexivity.
  - rewrite H. do 4 f_equal. rewrite length_app. lia.
Qed.

Lemma history_is_context_only_witness :
  exists all_scores,
    _get_anomaly_score (constructed (config_with_target 0)) (ramp 0 100) None
    = Ok {| index := index (ramp 0 100); columns := [all_scores] |} /\
    _get_anomaly_score (constructed (config_with_target 0)) (ramp 50 50) (Some (ramp 0 50))
    = Ok {| index := index (ramp 50 50);
            columns := [skipn (length (map INR (seq 0 50))) all_scores] |}.
Proof.
  apply (history_is_context_only (constructed (config_with_target 0)) 0
           (ramp 50 50) (ramp 0 50) (ramp 0 100)
           (map INR (seq 0 50)) (map INR (seq 50 50))).
  - exact valid_call_fifty.
  - reflexivity.
  - reflexivity.
  - sample_frame.
  - sample_arith.
  - unfold values_col, ramp. cbn [columns py_index length Z.of_nat Z.ltb Z.compare
      Z.leb andb Pos.of_succ_nat Pos.compare Pos.compare_cont Z.to_nat nth_error].
    rewrite <- map_app, <- seq_app. reflexivity.
Defined.

(* ================================================================== *)
(** * Further properties: fitting *)

(** X10. Fitting again on the same series changes nothing: the second fit
    leaves the detector as the first one did and has the same result. *)
Theorem refit_is_idempotent (self : SpectralResidual) (df : DataFrame) :
  _train (fst (_train self df)) df = _train self df.
Proof.
  unfold _train.
  destruct (Z.eqb_spec (shape1 df) 1) as [E|E]; cbn [fst].
  - destruct (Z.eqb_spec (shape1 df) 1); [reflexivity|contradiction].
  - destruct (self_target_seq_index self) as [t|] eqn:Ht; cbn [fst];
      (destruct (Z.eqb_spec (shape1 df) 1); [contradiction|]); now rewrite Ht.
Qed.

(** X11. The scores a successful fit returns are the scores the fitted
    detector gives to the training series. *)
Theorem fit_returns_training_scores (self : SpectralResidual) (df scores : DataFrame) :
  snd (_train self df) = Ok scores ->
  _get_anomaly_score (fst (_train self df)) df None = Ok scores.
Proof.
  unfold _train, assert_then_score.
  destruct (Z.eqb_spec (shape1 df) 1) as [E|E]; cbn [fst snd].
  - rewrite E. cbn [Z.leb Z.ltb Z.compare andb]. trivial.
  - destruct (self_target_seq_index self) as [t|]; cbn [fst snd]; [|discriminate].
    destruct ((0 <=? t) && (t <? shape1 df))%Z; [trivial|discriminate].
Qed.

Lemma fit_returns_training_scores_witness :
  exists scores,
    snd (_train (constructed default_config) one_channel) = Ok scores /\
    _get_anomaly_score (fst (_train (constructed default_config) one_channel))
                       one_channel None = Ok scores.
Proof.
  destruct (score_pipeline _ _ _ _ valid_call_one_channel_sample)
    as (values & s & _ & _ & _ & _ & _ & _ & H).
  assert (E : snd (_train (constructed default_config) one_channel)
              = _get_anomaly_score (constructed (config_with_target 0)) one_channel None)
    by reflexivity.
  rewrite H in E. eexists. split; [exact E|].
  exact (fit_returns_training_scores (constructed default_config) one_channel _ E).
Defined.

(** X12. On a series with a channel count other than 1, a fit with a
    configured target for which scoring the series is a valid call
    succeeds, leaves the detector unchanged and returns one score per
    row. *)
Theorem multi_channel_fit_succeeds (self : SpectralResidual) (t : Z) (df : DataFrame) :
  shape1 df <> 1%Z ->
  valid_call self t df None ->
  exists scores,
    _train self df = (self, Ok {| index := index df; columns := [scores] |}) /\
    length scores = length (index df).
Proof.
  intros Hd Hvalid.
  pose proof Hvalid as (_ & Ht & _ & (Hlo & Hhi) & _).
  destruct (score_pipeline _ _ _ _ Hvalid) as (values & s & _ & _ & _ & _ & _ & _ & H).
  unfold _train, assert_then_score.
  destruct (Z.eqb_spec (shape1 df) 1); [contradiction|]. rewrite Ht.
  destruct (Z.leb_spec 0 t); [|lia]. destruct (Z.ltb_spec t (shape1 df)); [|lia].
  cbn [andb]. rewrite H. eexists. split; [reflexivity|].
  destruct (score_aligned_when_ok _ _ _ _ H) as (_ & scores & Hc & Hl).
  cbn [columns] in Hc. injection Hc as <-. exact Hl.
Qed.

Lemma multi_channel_fit_succeeds_witness :
  exists scores,
    _train (constructed (config_with_target 2)) three_channels
    = (constructed (config_with_target 2),
       Ok {| index := [0%Z; 1%Z; 2%Z]; columns := [scores] |}) /\
    length scores = 3%nat.
Proof.
  apply (multi_channel_fit_succeeds (constructed (config_with_target 2)) 2 three_channels).
  - discriminate.
  - exact valid_call_three_channels.
Defined.

(* ================================================================== *)
(** * Further properties: series that are too short, and score bounds *)

(** X13. When the working array has at least one point but, once padded,
    more than one and fewer than [q] points, scoring raises [ValueError]:
    the length condition of a valid call is necessary. *)
Theorem score_too_short_raises (self : SpectralResidual) (i : Z) (ts : DataFrame)
        (prev : option DataFrame) (values : list R) :
  well_configured self ->
  self_target_seq_index self = Some i ->
  working_values i ts prev = Ok values ->
  (1 <= length values)%nat ->
  (1 < Z.of_nat (length values) + pad_count self < q (config self))%Z ->
  _get_anomaly_score self ts prev = Raise ValueError.
Proof.
  intros Hwc Ht Hv Hn Hshort. unfold pad_count in Hshort.
  pose proof Hwc as ((Hq & Hk) & _ & Hp).
  assert (Hkl : length (q_conv_map self) = Z.to_nat (q (config self)))
    by (rewrite Hk, length_map, repeat_length; reflexivity).
  unfold _get_anomaly_score. rewrite Ht, Hv. cbn [bind].
  unfold trimmed_saliency_map.
  destruct (Z.gtb_spec (estimated_points (config self)) 0) as [He|He].
  - destruct (pad_length self values) as (padded & -> & Hlen); try lia.
    cbn [bind]. rewrite saliency_map_raises; [reflexivity|].
    right. right. rewrite Hkl, Hlen. lia.
  - cbn [bind]. rewrite saliency_map_raises; [reflexivity|].
    right. right. rewrite Hkl. lia.
Qed.

Lemma score_too_short_raises_witness :
  _get_anomaly_score (constructed (unpadded_config 3)) two_points None
  = Raise ValueError.
Proof.
  apply (score_too_short_raises (constructed (unpadded_config 3)) 0 two_points None [1; 2]).
  - apply constructed_well_configured; sample_arith.
  - reflexivity.
  - reflexivity.
  - simpl. lia.
  - unfold pad_count. simpl. lia.
Defined.












Lemma skipn_repeat {A : Type} (x : A) (n k : nat) :
  skipn k (repeat x n) = repeat x (n - k).
Proof.
  revert n. induction k as [|k IH]; intros [|n]; try reflexivity.
  simpl. apply IH.
Qed.

Lemma zip_with_repeat {A B D : Type} (f : A -> B -> D) (x : A) (y : B) (n : nat) :
  zip_with f (repeat x n) (repeat y n) = repeat (f x y) n.
Proof.
  unfold zip_with. induction n as [|n IH]; [reflexivity|].
  simpl. f_equal. exact IH.
Qed.

(** X15. A flat saliency map scores nothing: if all [N >= 1] saliency
    values equal [c], every trailing average is [c] and all [N] scores are
    0. *)
Theorem flat_saliency_scores_zero (self : SpectralResidual) (c : R) (N : nat) :
  trailing_kernel_ok self ->
  (1 <= N)%nat ->
  local_average self (repeat c N) (Z.of_nat N) = Ok (repeat c (N - 1)) /\
  assemble_scores (repeat c N) (repeat c (N - 1)) = Ok (repeat 0 N).
Proof.
  intros Hk HN. pose proof Hk as (Hw & _).
  split.
  - pose proof (local_average_ok self (repeat c N) Hk) as H.
    rewrite repeat_length in H. rewrite H by assumption. f_equal.
    apply (nth_ext _ _ 0 0).
    + now rewrite local_average_ref_length, !repeat_length.
    + intros n Hn. rewrite local_average_ref_length, repeat_length in Hn.
      replace n with (S n - 1)%nat at 1 by lia.
      rewrite local_average_ref_nth by (rewrite ?repeat_length; lia).
      rewrite nth_repeat_lt by lia.
      rewrite (Rsum_map_ext_in _ (fun _ => c)).
      * rewrite Rsum_const, length_seq. field. apply not_0_INR. lia.
      * intros j Hj. apply in_seq in Hj. apply nth_repeat_lt. lia.
  - rewrite assemble_scores_ok by (rewrite !repeat_length; lia).
    unfold scores_ref. rewrite skipn_repeat, zip_with_repeat.
    destruct N as [|N]; [lia|]. replace (S N - 1)%nat with N by lia.
    cbn [repeat]. do 3 f_equal. unfold relative_deviation, Rdiv. ring.
Qed.

Lemma flat_saliency_scores_zero_witness :
  local_average (constructed default_config) (repeat 2 4) 4 = Ok (repeat 2 3) /\
  assemble_scores (repeat 2 4) (repeat 2 3) = Ok (repeat 0 4).
Proof.
  apply (flat_saliency_scores_zero (constructed default_config) 2 4).
  - split; [sample_arith|reflexivity].
  - lia.
Defined.

Lemma slopes_shift (m : nat) (values : list R) (c : R) :
  (m < length values)%nat ->
  slopes m (map (fun v => v + c) values) = slopes m values.
Proof.
  intros Hm. unfold slopes. rewrite length_map.
  apply map_ext_in. intros d Hd. apply in_rev, in_seq in Hd.
  rewrite !(nth_map_lt _ _ _ 0) by lia.
  unfold Rdiv. ring.
Qed.

(** X16. Shifting an array of at least two points by a constant leaves the
    gradient unchanged and shifts the padded array, appended points
    included, by the same constant. *)
Theorem padding_commutes_with_shift (self : SpectralResidual) (values : list R) (c : R) :
  (1 <= predicting_points (config self))%Z ->
  (2 <= length values)%nat ->
  _compute_grad self (map (fun v => v + c) values) = _compute_grad self values /\
  ((0 <= estimated_points (config self))%Z ->
   exists padded,
     _pad self values = Ok padded /\
     _pad self (map (fun v => v + c) values) = Ok (map (fun v => v + c) padded)).
Proof.
  intros Hp Hn.
  set (m := Z.to_nat (Z.min (predicting_points (config self))
                            (Z.of_nat (length values) - 1))).
  assert (Hm : (1 <= m < length values)%nat) by (unfold m; lia).
  assert (Hg : gradient_ref m (map (fun v => v + c) values) = gradient_ref m values)
    by (unfold gradient_ref; rewrite slopes_shift by lia; reflexivity).
  split.
  - rewrite !compute_grad_ok by (rewrite ?length_map; lia).
    rewrite length_map. fold m. now rewrite Hg.
  - intros He. rewrite !pad_ok by (rewrite ?length_map; lia).
    rewrite length_map. fold m. eexists. split; [reflexivity|].
    unfold padded_ref. rewrite Hg, length_map, map_app, map_repeat.
    rewrite (nth_map_lt _ _ _ 0) by lia.
    do 3 f_equal. ring.
Qed.

Lemma padding_commutes_with_shift_witness :
  _compute_grad (constructed default_config) (map (fun v => v + 10) [1; 2; 4])
  = _compute_grad (constructed default_config) [1; 2; 4].
Proof.
  apply (padding_commutes_with_shift (constructed default_config) [1; 2; 4] 10).
  - simpl. lia.
  - simpl. lia.
Defined.
